(** * JGManager: the game-core lifecycle manager of the FLTK frontend

    A shallow embedding of [source/fltkui/jgmanager.cpp].  The manager sits
    between the frontend and the emulator core (the [jg_*] entry points).
    Every call that leaves the manager is recorded in a trace, so that the
    order and number of core calls can be stated; what the core answers is
    supplied by an oracle that may look at the trace so far. *)

From Stdlib Require Import ZArith List String Ascii Bool Lia.
From Stdlib Require Import DecimalString DecimalFacts DecimalZ.
From Stdlib Require Import Floats.
Import ListNotations.

Local Open Scope string_scope.
Local Open Scope Z_scope.

(** ** Data model *)

(** [jg_setting_t *]: the manager records [&jg_settings[i]], an address
    inside the core's settings array; the address is modelled by the index. *)
Definition ptr := nat.

(** Modelled from the spec: the descriptor type [jg_setting_t] is declared in
    the core's header, which is not part of this translation unit; the manager
    only ever reads its [name] field. *)
Record jg_setting_t := { name : string }.

(** The record handed to [jg_set_paths]; its members are the [c_str()] of the
    manager's own strings, modelled by their contents. *)
Record jg_pathinfo_t := {
  pi_base : string;
  pi_bios : string;
  pi_user : string;
  pi_save : string;
  pi_core : string
}.

(** The record handed to [jg_set_gameinfo]. *)
Record jg_gameinfo_t := {
  gi_data : list Byte.byte;
  gi_size : nat;
  gi_crc : Z;
  gi_md5 : string;
  gi_path : string;
  gi_name : string;
  gi_fname : string
}.

(** Modelled from the spec: the log severities come from the core's header;
    the manager itself only uses the screen severity [JG_LOG_SCR]. *)
Inductive jg_loglevel := JG_LOG_DBG | JG_LOG_INF | JG_LOG_WRN | JG_LOG_ERR | JG_LOG_SCR.

(** Everything the manager does to the outside: core entry points,
    [LogDriver::jg_log], and [std::filesystem::create_directories]. *)
Inductive Event :=
| jg_set_paths (p : jg_pathinfo_t)
| jg_get_settings
| jg_set_cb_frametime
| jg_set_cb_log
| jg_init
| jg_deinit
| jg_game_unload
| jg_set_gameinfo (g : jg_gameinfo_t)
| jg_game_load
| jg_exec_frame
| jg_reset (hard : Z)
| jg_state_load (filename : string)
| jg_state_save (filename : string)
| jg_media_select
| jg_media_insert
| jg_cheat_clear
| jg_cheat_set (code : string)
| jg_rehash
| create_directories (p : string)
| jg_log (level : jg_loglevel) (msg : string).

(** The members of the [JGManager] object. *)
Record JGManager := {
  loaded : bool;
  basepath : string;
  savepath : string;
  corepath : string;
  pathinfo : jg_pathinfo_t;
  gameinfo : jg_gameinfo_t;
  gamepath : string;
  gamename : string;
  gamefname : string;
  gamemd5 : string;
  settings : list ptr
}.

(** The manager object, the file-scope variable [frametime] of the anonymous
    namespace, and the trace of outside calls made so far (oldest first).
    The core runs the registered frametime callback when it sees fit; that
    is the separate step [jg_frametime] below and no part of a core call
    here, so nothing is stated about [frametime] across calls into a core
    that holds the callback. *)
Record World := {
  jgm : JGManager;
  frametime : Z;
  trace : list Event
}.

(** The answers of the emulator core.  Integer results may depend on
    everything the core has been asked before. *)
Record Core := {
  core_settings : list jg_setting_t;
  core_init : list Event -> Z;
  core_game_load : list Event -> Z;
  core_state_load : list Event -> string -> Z;
  core_state_save : list Event -> string -> Z
}.

(** What the manager takes from its surroundings: the process environment,
    the file system (whether a file exists, whether a directory can be
    created), the compile-time [NST_DATADIR], the [Hasher] class and the two
    [std::filesystem::path] decompositions. *)
Record Host := {
  getenv : string -> option string;
  fs_exists : string -> bool;
  fs_create_directories : string -> bool;
  NST_DATADIR : string;
  Hasher_crc : list Byte.byte -> Z;
  Hasher_md5 : list Byte.byte -> string;
  path_stem : string -> string;
  path_filename : string -> string
}.

(** ** Field updates *)

Definition with_loaded (b : bool) (m : JGManager) : JGManager :=
  {| loaded := b; basepath := basepath m; savepath := savepath m;
     corepath := corepath m; pathinfo := pathinfo m; gameinfo := gameinfo m;
     gamepath := gamepath m; gamename := gamename m; gamefname := gamefname m;
     gamemd5 := gamemd5 m; settings := settings m |}.

Definition with_paths (b s c : string) (p : jg_pathinfo_t) (m : JGManager) : JGManager :=
  {| loaded := loaded m; basepath := b; savepath := s;
     corepath := c; pathinfo := p; gameinfo := gameinfo m;
     gamepath := gamepath m; gamename := gamename m; gamefname := gamefname m;
     gamemd5 := gamemd5 m; settings := settings m |}.

Definition with_game (g : jg_gameinfo_t) (m : JGManager) : JGManager :=
  {| loaded := loaded m; basepath := basepath m; savepath := savepath m;
     corepath := corepath m; pathinfo := pathinfo m; gameinfo := g;
     gamepath := gi_path g; gamename := gi_name g; gamefname := gi_fname g;
     gamemd5 := gi_md5 g; settings := settings m |}.

Definition with_settings (l : list ptr) (m : JGManager) : JGManager :=
  {| loaded := loaded m; basepath := basepath m; savepath := savepath m;
     corepath := corepath m; pathinfo := pathinfo m; gameinfo := gameinfo m;
     gamepath := gamepath m; gamename := gamename m; gamefname := gamefname m;
     gamemd5 := gamemd5 m; settings := l |}.

(** ** The monad of manager code: world passing, with [None] when the code
    does not return: behaviour the language leaves undefined (a
    [std::string] built from a null pointer, a dangling descriptor, a
    [double] that does not fit an [int]) and an exception that leaves the
    function (a directory that cannot be created). *)

Definition M (A : Type) : Type := World -> option (A * World).

Definition ret {A} (a : A) : M A := fun w => Some (a, w).

Definition bind {A B} (c : M A) (k : A -> M B) : M B :=
  fun w => match c w with
           | Some (a, w') => k a w'
           | None => None
           end.

Definition undefined {A} : M A := fun _ => None.

Declare Scope jg_scope.
Delimit Scope jg_scope with jg.
Notation "x <- c ;; k" := (bind c (fun x => k))
  (at level 61, c at next level, right associativity) : jg_scope.
Notation "c ;; k" := (bind c (fun _ => k))
  (at level 61, right associativity) : jg_scope.
Local Open Scope jg_scope.

Definition this : M JGManager := fun w => Some (jgm w, w).

Definition modify (f : JGManager -> JGManager) : M unit :=
  fun w => Some (tt, {| jgm := f (jgm w); frametime := frametime w; trace := trace w |}).

Definition emit (e : Event) : M unit :=
  fun w => Some (tt, {| jgm := jgm w; frametime := frametime w; trace := trace w ++ [e] |}).

(** A core entry point that returns an [int]: the answer is the oracle's at
    the trace before the call, and the call is recorded. *)
Definition ask (answer : list Event -> Z) (e : Event) : M Z :=
  fun w => Some (answer (trace w),
                 {| jgm := jgm w; frametime := frametime w; trace := trace w ++ [e] |}).

Definition set_frametime (z : Z) : M unit :=
  fun w => Some (tt, {| jgm := jgm w; frametime := z; trace := trace w |}).

(** [std::string(p)] for a [const char *] that may be null. *)
Definition string_of_cstr (p : option string) : M string :=
  match p with
  | Some s => ret s
  | None => undefined
  end.

(** ** Library functions used by the manager *)

(** [std::to_string(int)]: a minus sign for negative values, then the
    decimal digits of the magnitude. *)
Definition to_string (z : Z) : string := NilZero.string_of_int (Z.to_int z).

(** Reading a decimal numeral back, the inverse direction of [to_string]. *)
Definition of_string (s : string) : option Z :=
  option_map Z.of_int (NilZero.int_of_string s).

Definition INT_MIN : Z := -2147483648.
Definition INT_MAX : Z := 2147483647.

(** The implicit conversion of a [double] to [int]: the fractional part is
    discarded (truncation toward zero); the conversion is undefined when the
    truncated value does not fit, and for infinities and NaN.  A finite
    double is [(-1)^s * m * 2^e]; shifting the positive [m] by [e] drops the
    fraction bits when [e] is negative. *)
Definition int_of_double (d : float) : option Z :=
  match Prim2SF d with
  | S754_zero _ => Some 0
  | S754_finite s m e =>
      let magnitude := Z.shiftl (Zpos m) e in
      let z := if s then - magnitude else magnitude in
      if (INT_MIN <=? z) && (z <=? INT_MAX) then Some z else None
  | S754_infinity _ | S754_nan => None
  end.

(** ** The code of jgmanager.cpp *)

(** The callback registered with [jg_set_cb_frametime]:
    [frametime = interval + 0.5;] with [frametime] an [int]. *)
Definition jg_frametime (interval : float) : M unit :=
  match int_of_double (interval + 0.5)%float with
  | Some z => set_frametime z
  | None => undefined
  end.

Definition get_frametime : M Z := fun w => Some (frametime w, w).

(** The loop of the constructor: [settings.push_back(&jg_settings[i])] for
    [i] from the current index while fewer than [numsettings] were pushed. *)
Fixpoint record_settings (remaining : nat) (i : ptr) (l : list ptr) : list ptr :=
  match remaining with
  | O => l
  | S r => record_settings r (S i) (l ++ [i])
  end.

(** The manager before its constructor body runs.  Modelled from the spec:
    the member initialisers are in the class declaration, not in this
    translation unit; a fresh manager holds no game. *)
Definition empty_pathinfo : jg_pathinfo_t :=
  {| pi_base := ""; pi_bios := ""; pi_user := ""; pi_save := ""; pi_core := "" |}.
Definition empty_gameinfo : jg_gameinfo_t :=
  {| gi_data := []; gi_size := 0; gi_crc := 0; gi_md5 := ""; gi_path := "";
     gi_name := ""; gi_fname := "" |}.
Definition fresh_manager : JGManager :=
  {| loaded := false; basepath := ""; savepath := ""; corepath := "";
     pathinfo := empty_pathinfo; gameinfo := empty_gameinfo; gamepath := "";
     gamename := ""; gamefname := ""; gamemd5 := ""; settings := [] |}.

(** [int frametime{60};] *)
Definition fresh_world : World :=
  {| jgm := fresh_manager; frametime := 60; trace := [] |}.

(** The record [load_game] fills in from its arguments before it hands it
    to [jg_set_gameinfo]. *)
Definition gameinfo_of (host : Host) (filename : string) (game : list Byte.byte) : jg_gameinfo_t :=
  {| gi_data := game;
     gi_size := List.length game;
     gi_crc := Hasher_crc host game;
     gi_md5 := Hasher_md5 host game;
     gi_path := filename;
     gi_name := path_stem host filename;
     gi_fname := path_filename host filename |}.

Section Manager.

Variable core : Core.
Variable host : Host.

Definition unload_game : M unit :=
  m <- this ;;
  if loaded m then
    emit jg_game_unload ;;
    modify (with_loaded false)
  else ret tt.

Definition load_game (filename : string) (game : list Byte.byte) : M unit :=
  unload_game ;;
  let g := gameinfo_of host filename game in
  modify (with_game g) ;;
  emit (jg_set_gameinfo g) ;;
  r <- ask (core_game_load core) jg_game_load ;;
  if r =? 0 then
    unload_game
  else
    modify (with_loaded true).

(** [std::filesystem::create_directories(p)]: recorded when the directory
    is there afterwards; when it cannot be created the call throws, and the
    exception leaves [set_paths] and the constructor. *)
Definition make_directories (p : string) : M unit :=
  if fs_create_directories host p then emit (create_directories p) else undefined.

Definition set_paths : M unit :=
  b <- match getenv host "XDG_DATA_HOME" with
       | Some env_xdg_data => ret (env_xdg_data ++ "/nestopia")
       | None =>
           home <- string_of_cstr (getenv host "HOME") ;;
           ret (home ++ "/.local/share/nestopia")
       end ;;
  let s := b ++ "/save" in
  make_directories s ;;
  make_directories (b ++ "/state") ;;
  make_directories (b ++ "/screenshots") ;;
  c <- (if fs_exists host "NstDatabase.xml"
        then string_of_cstr (getenv host "PWD")
        else ret (NST_DATADIR host)) ;;
  let p := {| pi_base := b; pi_bios := b; pi_user := b; pi_save := s; pi_core := c |} in
  modify (with_paths b s c p) ;;
  emit (jg_set_paths p).

Definition constructor : M unit :=
  set_paths ;;
  emit jg_get_settings ;;
  modify (fun m => with_settings
                     (record_settings (List.length (core_settings core)) 0%nat (settings m)) m) ;;
  emit jg_set_cb_frametime ;;
  emit jg_set_cb_log ;;
  _ <- ask (core_init core) jg_init ;;
  ret tt.

Definition destructor : M unit :=
  emit jg_deinit ;;
  unload_game.

Definition init : M Z := ask (core_init core) jg_init.

Definition is_loaded : M bool := m <- this ;; ret (loaded m).
Definition get_basepath : M string := m <- this ;; ret (basepath m).
Definition get_gamename : M string := m <- this ;; ret (gamename m).
Definition get_settings : M (list ptr) := m <- this ;; ret (settings m).

(** The scan of [get_setting]: [settings[i]] is dereferenced to read its
    name; [None] inside is [nullptr], [None] outside a dangling pointer. *)
Fixpoint get_setting_scan (l : list ptr) (n : string) : option (option ptr) :=
  match l with
  | [] => Some None
  | p :: l' =>
      match nth_error (core_settings core) p with
      | None => None
      | Some d => if String.eqb (name d) n then Some (Some p)
                  else get_setting_scan l' n
      end
  end.

Definition get_setting (n : string) : M (option ptr) :=
  m <- this ;;
  match get_setting_scan (settings m) n with
  | Some r => ret r
  | None => undefined
  end.

Definition exec_frame : M unit := emit jg_exec_frame.

Definition reset (hard : Z) : M unit :=
  m <- this ;;
  if loaded m then emit (jg_reset hard) else ret tt.

Definition state_load (filename : string) : M Z :=
  m <- this ;;
  if negb (loaded m) then ret 2
  else ask (fun t => core_state_load core t filename) (jg_state_load filename).

(** [basepath + "/state/" + gamename + "_" + std::to_string(slot) + ".nst"],
    the additions grouped from the left as the compiler groups them. *)
Definition slotpath (m : JGManager) (slot : Z) : string :=
  ((((basepath m ++ "/state/") ++ gamename m) ++ "_") ++ to_string slot) ++ ".nst".

Definition state_qload (slot : Z) : M Z :=
  m <- this ;;
  if negb (loaded m) then ret 2
  else
    result <- state_load (slotpath m slot) ;;
    match result with
    | 0 => emit (jg_log JG_LOG_SCR "State Load Failed")
    | 1 => emit (jg_log JG_LOG_SCR "State Loaded")
    | _ => emit (jg_log JG_LOG_SCR "State Load Unknown")
    end ;;
    ret result.

Definition state_save (filename : string) : M Z :=
  m <- this ;;
  if negb (loaded m) then ret 2
  else ask (fun t => core_state_save core t filename) (jg_state_save filename).

Definition state_qsave (slot : Z) : M Z :=
  m <- this ;;
  if negb (loaded m) then ret 2
  else
    result <- state_save (slotpath m slot) ;;
    match result with
    | 0 => emit (jg_log JG_LOG_SCR "State Save Failed")
    | 1 => emit (jg_log JG_LOG_SCR "State Saved")
    | _ => emit (jg_log JG_LOG_SCR "State Save Unknown")
    end ;;
    ret result.

Definition media_select : M unit :=
  m <- this ;;
  if negb (loaded m) then ret tt else emit jg_media_select.

Definition media_insert : M unit :=
  m <- this ;;
  if negb (loaded m) then ret tt else emit jg_media_insert.

Definition cheat_clear : M unit := emit jg_cheat_clear.

Definition cheat_set (code : string) : M unit := emit (jg_cheat_set code).

Definition rehash : M unit :=
  m <- this ;;
  if loaded m then emit jg_rehash else ret tt.

End Manager.

(** ** Vocabulary for the statements *)

(** The calls made between two worlds: what the later trace adds. *)
Definition emitted (w w' : World) (es : list Event) : Prop :=
  trace w' = (trace w ++ es)%list.

(** How often an event satisfying [p] occurs. *)
Definition occurrences (p : Event -> bool) (es : list Event) : nat :=
  List.length (filter p es).

Definition is_game_unload (e : Event) : bool :=
  match e with jg_game_unload => true | _ => false end.
Definition is_game_load (e : Event) : bool :=
  match e with jg_game_load => true | _ => false end.
Definition is_set_gameinfo (e : Event) : bool :=
  match e with jg_set_gameinfo _ => true | _ => false end.

(** Calls into the emulator core, as opposed to logging and the file system. *)
Definition is_core_call (e : Event) : bool :=
  match e with
  | create_directories _ | jg_log _ _ => false
  | _ => true
  end.

(** Every recorded settings pointer points into the core's array. *)
Definition settings_valid (core : Core) (m : JGManager) : Prop :=
  Forall (fun p => (p < List.length (core_settings core))%nat) (settings m).

(** The exact value of a finite double rounded down to an integer; [None]
    for infinities and NaN.  The signed significand is shifted, and a right
    shift of a negative integer rounds toward minus infinity. *)
Definition floor_of_double (d : float) : option Z :=
  match Prim2SF d with
  | S754_zero _ => Some 0
  | S754_finite s m e => Some (Z.shiftl (if s then Zneg m else Zpos m) e)
  | S754_infinity _ | S754_nan => None
  end.

(** The exact value of a finite double with its fraction cut off, that is
    rounded toward zero; [None] for infinities and NaN.  The value is
    [sm * 2^e] for the signed significand [sm]; with [e] negative its
    integer part is the quotient of [sm] by [2^(-e)] that rounds toward
    zero. *)
Definition truncation_of_double (d : float) : option Z :=
  match Prim2SF d with
  | S754_zero _ => Some 0
  | S754_finite s m e =>
      let sm := if s then Z.neg m else Z.pos m in
      Some (if 0 <=? e then sm * 2 ^ e else Z.quot sm (2 ^ (- e)))
  | S754_infinity _ | S754_nan => None
  end.


(** A decimal numeral without padding: a lone ["0"], or digits that do not
    start with ['0'], possibly after one minus sign. *)
Definition is_digit (c : ascii) : bool :=
  let n := nat_of_ascii c in (48 <=? n)%nat && (n <=? 57)%nat.

Fixpoint all_digits (s : string) : bool :=
  match s with
  | EmptyString => true
  | String c s' => is_digit c && all_digits s'
  end.

Definition unpadded_digits (s : string) : bool :=
  match s with
  | EmptyString => false
  | String c s' =>
      all_digits s && (negb (Ascii.eqb c "0") || String.eqb s' "")
  end.

Definition unpadded_decimal (s : string) : bool :=
  match s with
  | String "-" s' => unpadded_digits s' && negb (String.eqb s' "0")
  | _ => unpadded_digits s
  end.

(** A command is a silent no-op when it returns leaving the whole world,
    manager and trace alike, as it found it. *)
Definition silent_noop (c : M unit) (w : World) : Prop := c w = Some (tt, w).

(** The descriptor a recorded pointer points to. *)
Definition deref (core : Core) (p : ptr) : option jg_setting_t := nth_error (core_settings core) p.

(** What a lookup result must satisfy for the query [n] over the recorded
    pointers [l]: a pointer is one of [l] and names [n]; null means that no
    recorded pointer names [n]. *)
Definition lookup_result_ok (core : Core) (l : list ptr) (n : string) (r : option ptr) : Prop :=
  match r with
  | Some p => In p l /\ exists d, deref core p = Some d /\ name d = n
  | None => forall p d, In p l -> deref core p = Some d -> name d <> n
  end.

(** The slot path written the way the specification does. *)
Definition quick_slot_path (m : JGManager) (slot : Z) : string :=
  basepath m ++ "/state/" ++ gamename m ++ "_" ++ to_string slot ++ ".nst".

(** The message the quick-slot commands show for a status, as the
    specification lists them. *)
Definition save_message (status : Z) : string :=
  if status =? 1 then "State Saved"
  else if status =? 0 then "State Save Failed"
  else "State Save Unknown".

Definition load_message (status : Z) : string :=
  if status =? 1 then "State Loaded"
  else if status =? 0 then "State Load Failed"
  else "State Load Unknown".

(** ** Sequences of calls *)

(** The public member functions a frontend may call on a constructed
    manager, with their arguments. *)
Inductive Command :=
| call_init
| call_unload_game
| call_load_game (filename : string) (game : list Byte.byte)
| call_is_loaded
| call_get_basepath
| call_get_gamename
| call_get_settings
| call_get_setting (n : string)
| call_exec_frame
| call_reset (hard : Z)
| call_state_load (filename : string)
| call_state_qload (slot : Z)
| call_state_save (filename : string)
| call_state_qsave (slot : Z)
| call_media_select
| call_media_insert
| call_cheat_clear
| call_cheat_set (code : string)
| call_get_frametime
| call_rehash.

(** A call whose result the caller drops. *)
Definition discard {A} (c : M A) : M unit := _ <- c ;; ret tt.

(** One call, dispatched to the member function it names. *)
Definition exec (core : Core) (host : Host) (c : Command) : M unit :=
  match c with
  | call_init => discard (init core)
  | call_unload_game => unload_game
  | call_load_game filename game => load_game core host filename game
  | call_is_loaded => discard is_loaded
  | call_get_basepath => discard get_basepath
  | call_get_gamename => discard get_gamename
  | call_get_settings => discard get_settings
  | call_get_setting n => discard (get_setting core n)
  | call_exec_frame => exec_frame
  | call_reset hard => reset hard
  | call_state_load filename => discard (state_load core filename)
  | call_state_qload slot => discard (state_qload core slot)
  | call_state_save filename => discard (state_save core filename)
  | call_state_qsave slot => discard (state_qsave core slot)
  | call_media_select => media_select
  | call_media_insert => media_insert
  | call_cheat_clear => cheat_clear
  | call_cheat_set code => cheat_set code
  | call_get_frametime => discard get_frametime
  | call_rehash => rehash
  end.

(** Calls made one after the other. *)
Fixpoint exec_all (core : Core) (host : Host) (cs : list Command) : M unit :=
  match cs with
  | [] => ret tt
  | c :: cs' => exec core host c ;; exec_all core host cs'
  end.

Definition is_load_command (c : Command) : bool :=
  match c with call_load_game _ _ => true | _ => false end.

(** What construction fixed in the manager: the paths, the record
    registered with the core, and the recorded settings. *)
Definition same_installation (w w' : World) : Prop :=
  basepath (jgm w') = basepath (jgm w) /\
  savepath (jgm w') = savepath (jgm w) /\
  corepath (jgm w') = corepath (jgm w) /\
  pathinfo (jgm w') = pathinfo (jgm w) /\
  settings (jgm w') = settings (jgm w).

(** The game identity the manager holds: the record and the four strings
    behind it. *)
Definition same_identity (w w' : World) : Prop :=
  gameinfo (jgm w') = gameinfo (jgm w) /\
  gamepath (jgm w') = gamepath (jgm w) /\
  gamename (jgm w') = gamename (jgm w) /\
  gamefname (jgm w') = gamefname (jgm w) /\
  gamemd5 (jgm w') = gamemd5 (jgm w).

(** Core calls that act on the game the core holds. *)
Definition is_session_call (e : Event) : bool :=
  match e with
  | jg_game_unload | jg_reset _ | jg_state_load _ | jg_state_save _
  | jg_media_select | jg_media_insert | jg_rehash => true
  | _ => false
  end.

(** Every game-unload the core was asked for, and the game the manager
    believes loaded, is matched by an earlier game-load. *)
Definition unloads_covered (w : World) : Prop :=
  (occurrences is_game_unload (trace w) + (if loaded (jgm w) then 1 else 0)
   <= occurrences is_game_load (trace w))%nat.

(** The identity strings of the manager are those of the record [g]. *)
Definition identity_of (m : JGManager) (g : jg_gameinfo_t) : Prop :=
  gameinfo m = g /\ gamepath m = gi_path g /\ gamename m = gi_name g /\
  gamefname m = gi_fname g /\ gamemd5 m = gi_md5 g.

(** The first element of [l] that satisfies [p], with the elements before it. *)
Definition first_match {A} (p : A -> bool) (l : list A) (x : A) : Prop :=
  exists before after, l = (before ++ x :: after)%list /\
                       p x = true /\ forallb (fun y => negb (p y)) before = true.

(** Whether the descriptor behind a pointer carries the name [n]. *)
Definition names (core : Core) (n : string) (p : ptr) : bool :=
  match deref core p with
  | Some d => String.eqb (name d) n
  | None => false
  end.

(** How [loaded] moves under one call: [unload_game] clears it, [load_game]
    sets it to the outcome of the core's game-load, nothing else touches it. *)
Definition next_loaded (before : bool) (c : Command) (load_ok : bool) : bool :=
  match c with
  | call_unload_game => false
  | call_load_game _ _ => load_ok
  | _ => before
  end.

(** Whether the core accepts the game of a [load_game] call made in world
    [w]: its game-load answer, asked after the unload of a held game and the
    set-gameinfo, is not 0. *)
Definition load_accepted (core : Core) (host : Host) (w : World) (c : Command) : bool :=
  match c with
  | call_load_game filename game =>
      negb (core_game_load core
              (trace w ++ (if loaded (jgm w) then [jg_game_unload] else [])
                       ++ [jg_set_gameinfo (gameinfo_of host filename game)]) =? 0)
  | _ => false
  end.

(** ** Mock surroundings, for running the code on concrete inputs *)

Definition mock_core (load_result state_result : Z) : Core :=
  {| core_settings := [ {| name := "a" |}; {| name := "b" |} ];
     core_init := fun _ => 1;
     core_game_load := fun _ => load_result;
     core_state_load := fun _ _ => state_result;
     core_state_save := fun _ _ => state_result |}.

Definition mock_host (xdg home : option string) : Host :=
  {| getenv := fun v =>
       if String.eqb v "XDG_DATA_HOME" then xdg
       else if String.eqb v "HOME" then home
       else if String.eqb v "PWD" then Some "/src/nestopia"
       else None;
     fs_exists := fun _ => false;
     fs_create_directories := fun p => negb (String.prefix "/dev/null" p);
     NST_DATADIR := "/usr/share/nestopia";
     Hasher_crc := fun _ => 0;
     Hasher_md5 := fun _ => "d41d8cd98f00b204e9800998ecf8427e";
     path_stem := fun _ => "Alpha";
     path_filename := fun _ => "Alpha.nes" |}.

(** Two call sequences for concrete runs: a session, and calls made without
    ever loading a game. *)
Definition sample_session : list Command :=
  [call_load_game "/roms/Alpha.nes" []; call_state_qsave 3; call_get_setting "b";
   call_exec_frame; call_unload_game; call_reset 1].

Definition sample_idle_calls : list Command :=
  [call_reset 1; call_state_qsave 3; call_media_select; call_rehash;
   call_unload_game; call_exec_frame; call_cheat_set "SXIOPO"].

(** A manager that holds the game [Alpha] under the base path [/d/nestopia]. *)
Definition running_world : World :=
  {| jgm := {| loaded := true; basepath := "/d/nestopia";
               savepath := "/d/nestopia/save"; corepath := "/usr/share/nestopia";
               pathinfo := empty_pathinfo; gameinfo := empty_gameinfo;
               gamepath := "/roms/Alpha.nes"; gamename := "Alpha";
               gamefname := "Alpha.nes"; gamemd5 := ""; settings := [0%nat; 1%nat] |};
     frametime := 60;
     trace := [jg_init] |}.

(** A core that exports two settings under the same name, and a manager
    that recorded all three of its descriptors. *)
Definition twin_core : Core :=
  {| core_settings := [ {| name := "a" |}; {| name := "b" |}; {| name := "b" |} ];
     core_init := fun _ => 1;
     core_game_load := fun _ => 1;
     core_state_load := fun _ _ => 1;
     core_state_save := fun _ _ => 1 |}.

Definition twin_world : World :=
  {| jgm := with_settings [0%nat; 1%nat; 2%nat] (jgm running_world);
     frametime := 60;
     trace := [jg_init] |}.

(** ** Proof support *)

Ltac run :=
  cbv [unload_game load_game make_directories set_paths constructor destructor init is_loaded
       get_basepath get_gamename get_settings get_setting exec_frame reset
       state_load state_qload state_save state_qsave media_select media_insert
       cheat_clear cheat_set rehash get_frametime
       bind ret this modify emit ask undefined set_frametime string_of_cstr emitted].

(** The branches of [set_paths]: the two environment lookups, the three
    directories, the database file and [PWD]. *)
Ltac set_paths_cases host :=
  run;
  destruct (getenv host "XDG_DATA_HOME") as [?x|] eqn:?; simpl;
  [| destruct (getenv host "HOME") as [?h|] eqn:?; simpl];
  repeat match goal with
         | |- context [if fs_create_directories host ?p then _ else _] =>
             destruct (fs_create_directories host p) eqn:?; simpl
         end;
  try (destruct (fs_exists host "NstDatabase.xml") eqn:?; simpl;
       [destruct (getenv host "PWD") as [?d|] eqn:?; simpl |]).

Lemma string_app_assoc (a b c : string) : ((a ++ b) ++ c = a ++ (b ++ c))%string.
Proof. induction a as [|x a IH]; simpl; [reflexivity | now rewrite IH]. Qed.

Lemma string_length_app (a b : string) :
  String.length (a ++ b) = (String.length a + String.length b)%nat.
Proof. induction a as [|x a IH]; simpl; [reflexivity | now rewrite IH]. Qed.

(** ** Commands on a manager that holds no game *)

(** C8: [state_load] and [state_save] on an unloaded manager return 2 and
    leave the world, hence the trace of core calls, exactly as it was: the
    core is not invoked. *)
Theorem state_load_save_unloaded (core : Core) (w : World) (filename : string) :
  loaded (jgm w) = false ->
  state_load core filename w = Some (2, w) /\
  state_save core filename w = Some (2, w).
Proof.
  intros H. run. rewrite H. simpl. split; reflexivity.
Qed.

Lemma state_load_save_unloaded_witness :
  loaded (jgm fresh_world) = false /\
  state_load (mock_core 1 1) "x.nst" fresh_world = Some (2, fresh_world) /\
  state_save (mock_core 1 1) "x.nst" fresh_world = Some (2, fresh_world).
Proof.
  split; [reflexivity | apply (state_load_save_unloaded (mock_core 1 1) fresh_world "x.nst"); reflexivity].
Defined.

(** C10: [state_qload] and [state_qsave] on an unloaded manager return 2 at
    once; the world is untouched, so no core call was made, no message was
    logged, and no slot path reached anyone. *)
Theorem state_quick_unloaded (core : Core) (w : World) (slot : Z) :
  loaded (jgm w) = false ->
  state_qload core slot w = Some (2, w) /\
  state_qsave core slot w = Some (2, w).
Proof.
  intros H. run. rewrite H. simpl. split; reflexivity.
Qed.

Lemma state_quick_unloaded_witness :
  loaded (jgm fresh_world) = false /\
  state_qload (mock_core 1 1) 3 fresh_world = Some (2, fresh_world) /\
  state_qsave (mock_core 1 1) 3 fresh_world = Some (2, fresh_world).
Proof.
  split; [reflexivity | apply (state_quick_unloaded (mock_core 1 1) fresh_world 3); reflexivity].
Defined.

(** C1, as amended: on an unloaded manager [reset], [media_select] and
    [media_insert] are silent no-ops.  [exec_frame] has no guard: whether a
    game is loaded or not, it leaves the manager as it was and calls
    [jg_exec_frame], exactly once. *)
Theorem unloaded_commands (w : World) (hard : Z) :
  (loaded (jgm w) = false ->
   silent_noop (reset hard) w /\
   silent_noop media_select w /\
   silent_noop media_insert w) /\
  exists w', exec_frame w = Some (tt, w') /\
             jgm w' = jgm w /\
             emitted w w' [jg_exec_frame].
Proof.
  split.
  - intros H. unfold silent_noop. run. rewrite H. simpl.
    repeat split; reflexivity.
  - run. eexists. repeat split.
Qed.

Lemma unloaded_commands_witness :
  (loaded (jgm fresh_world) = false /\
   silent_noop (reset 1) fresh_world /\
   silent_noop media_select fresh_world /\
   silent_noop media_insert fresh_world) /\
  (exists w', exec_frame fresh_world = Some (tt, w') /\
              jgm w' = jgm fresh_world /\
              emitted fresh_world w' [jg_exec_frame]) /\
  (loaded (jgm running_world) = true /\
   exists w', exec_frame running_world = Some (tt, w') /\
              jgm w' = jgm running_world /\
              emitted running_world w' [jg_exec_frame]).
Proof.
  split; [split; [reflexivity | apply (proj1 (unloaded_commands fresh_world 1)); reflexivity] |].
  split; [apply (proj2 (unloaded_commands fresh_world 1)) |].
  split; [reflexivity | apply (proj2 (unloaded_commands running_world 1))].
Defined.

(** C1 as stated fails: on the fresh, unloaded world [exec_frame] is not a
    silent no-op, its call reaches the core. *)
Lemma exec_frame_unloaded_reaches_core :
  loaded (jgm fresh_world) = false /\
  ~ silent_noop exec_frame fresh_world /\
  exists w', exec_frame fresh_world = Some (tt, w') /\
             filter is_core_call (trace w') = [jg_exec_frame].
Proof.
  split; [reflexivity | split].
  - unfold silent_noop. discriminate.
  - eexists. split; reflexivity.
Qed.

(** ** Destruction *)

(** C9: the destructor calls [jg_deinit] first and only then runs
    [unload_game]: its calls are [jg_deinit], followed by [jg_game_unload]
    when a game was still loaded, and by nothing otherwise. *)
Theorem destructor_deinit_first (w : World) :
  exists w', destructor w = Some (tt, w') /\
             emitted w w' (jg_deinit :: if loaded (jgm w) then [jg_game_unload] else []) /\
             loaded (jgm w') = false.
Proof.
  run. simpl. destruct (loaded (jgm w)) eqn:H; simpl.
  - eexists. split; [reflexivity | split; [simpl | reflexivity]].
    now rewrite <- app_assoc.
  - eexists. split; [reflexivity | split; [reflexivity | exact H]].
Qed.

(** ** Loading *)

Section Loading.

Variable core : Core.
Variable host : Host.

(** The complete behaviour of [load_game]: an unload when a game was held,
    then set-gameinfo and game-load; the manager ends up loaded exactly when
    the core's answer is not 0.  The second [unload_game], on the failure
    path, never reaches the core because [loaded] is false by then. *)
Lemma load_game_runs (w : World) (filename : string) (game : list Byte.byte) :
  let g := gameinfo_of host filename game in
  let pre := if loaded (jgm w) then [jg_game_unload] else [] in
  let r := core_game_load core (trace w ++ pre ++ [jg_set_gameinfo g]) in
  exists w', load_game core host filename game w = Some (tt, w') /\
             emitted w w' (pre ++ [jg_set_gameinfo g; jg_game_load]) /\
             loaded (jgm w') = negb (r =? 0) /\
             gamename (jgm w') = path_stem host filename.
Proof.
  intros g pre r. subst g pre r. run. simpl. fold (gameinfo_of host filename game).
  destruct (loaded (jgm w)) eqn:H; simpl.
  - rewrite <- !app_assoc. simpl.
    destruct (core_game_load core _ =? 0) eqn:R; simpl;
      eexists; (split; [reflexivity | simpl; repeat split]).
  - destruct (core_game_load core _ =? 0) eqn:R; simpl; rewrite ?H; simpl;
      eexists; (split; [reflexivity | simpl; repeat split; now rewrite <- ?app_assoc]).
Qed.

End Loading.

Lemma emitted_unique (w w' : World) (es es' : list Event) :
  emitted w w' es -> emitted w w' es' -> es = es'.
Proof.
  unfold emitted. intros H H'. rewrite H in H'. now apply app_inv_head in H'.
Qed.

(** What does hold of every [load_game]: when it leaves the manager loaded,
    the core saw one set-gameinfo directly followed by one game-load; and
    when it fails on a manager that held a game, that game was unloaded. *)
Lemma load_game_outcome (core : Core) (host : Host) (w : World)
      (filename : string) (game : list Byte.byte) :
  exists w' es, load_game core host filename game w = Some (tt, w') /\
    emitted w w' es /\
    occurrences is_set_gameinfo es = 1%nat /\
    occurrences is_game_load es = 1%nat /\
    (exists pre, es = pre ++ [jg_set_gameinfo (gameinfo_of host filename game); jg_game_load])%list /\
    (loaded (jgm w') = false -> occurrences is_game_unload es = if loaded (jgm w) then 1%nat else 0%nat).
Proof.
  destruct (load_game_runs core host w filename game) as (w' & Hrun & Hem & _).
  exists w'. eexists. split; [exact Hrun | split; [exact Hem |]].
  destruct (loaded (jgm w)); simpl; repeat split.
  - now exists [jg_game_unload].
  - now exists [].
Qed.

(** C2, the failing case run on the code: from an unloaded manager, with a
    core whose game-load answers 0, [load_game] returns with [loaded] false
    and the core has seen set-gameinfo and game-load only; [jg_game_unload]
    was not called at all, although the failure path calls [unload_game]. *)
Theorem load_game_failure_from_idle (core : Core) (host : Host) (w : World)
        (filename : string) (game : list Byte.byte) :
  loaded (jgm w) = false ->
  core_game_load core (trace w ++ [jg_set_gameinfo (gameinfo_of host filename game)]) = 0 ->
  exists w', load_game core host filename game w = Some (tt, w') /\
             loaded (jgm w') = false /\
             emitted w w' [jg_set_gameinfo (gameinfo_of host filename game); jg_game_load] /\
             forall es, emitted w w' es -> occurrences is_game_unload es = 0%nat.
Proof.
  intros H R.
  destruct (load_game_runs core host w filename game) as (w' & Hrun & Hem & Hl & _).
  rewrite H in Hem, Hl. simpl in Hem, Hl. rewrite R in Hl.
  exists w'. repeat split; try assumption.
  intros es Hes. now rewrite (emitted_unique _ _ _ _ Hes Hem).
Qed.

Lemma load_game_failure_from_idle_witness :
  exists w', load_game (mock_core 0 1) (mock_host (Some "/d") None) "/roms/Alpha.nes" [] fresh_world
               = Some (tt, w') /\
             loaded (jgm w') = false /\
             emitted fresh_world w'
               [jg_set_gameinfo (gameinfo_of (mock_host (Some "/d") None) "/roms/Alpha.nes" []);
                jg_game_load] /\
             forall es, emitted fresh_world w' es -> occurrences is_game_unload es = 0%nat.
Proof.
  apply (load_game_failure_from_idle (mock_core 0 1) (mock_host (Some "/d") None)
           fresh_world "/roms/Alpha.nes" []); reflexivity.
Defined.

(** ** Path resolution *)

(** Where the base path is as the environment convention has it: with a
    non-empty [XDG_DATA_HOME] it is that value followed by [/nestopia], and
    with [XDG_DATA_HOME] unset it is [$HOME] followed by
    [/.local/share/nestopia]; [set_paths] returns when the directories can
    be created and [PWD] is set whenever the core assets are looked up
    there. *)
Lemma set_paths_basepath (host : Host) (w : World) :
  (forall p, fs_create_directories host p = true) ->
  (fs_exists host "NstDatabase.xml" = true -> getenv host "PWD" <> None) ->
  (forall x, getenv host "XDG_DATA_HOME" = Some x -> x <> "" ->
     exists w', set_paths host w = Some (tt, w') /\
                basepath (jgm w') = x ++ "/nestopia") /\
  (forall h, getenv host "XDG_DATA_HOME" = None -> getenv host "HOME" = Some h ->
     exists w', set_paths host w = Some (tt, w') /\
                basepath (jgm w') = h ++ "/.local/share/nestopia").
Proof.
  intros Hdirs Hpwd. split.
  - intros x Hx _. run. rewrite Hx. simpl. rewrite !Hdirs. simpl.
    destruct (fs_exists host "NstDatabase.xml").
    + destruct (getenv host "PWD"); [| now destruct Hpwd].
      simpl. eexists. split; reflexivity.
    + simpl. eexists. split; reflexivity.
  - intros h Hx Hh. run. rewrite Hx, Hh. simpl. rewrite !Hdirs. simpl.
    destruct (fs_exists host "NstDatabase.xml").
    + destruct (getenv host "PWD"); [| now destruct Hpwd].
      simpl. eexists. split; reflexivity.
    + simpl. eexists. split; reflexivity.
Qed.

(** C3, the failing case run on the code: with [XDG_DATA_HOME] set to the
    empty string the lookup still takes the first branch, because only a
    null pointer is tested for.  Whatever [HOME] is, the base path becomes
    [/nestopia], at the root of the file system, and never
    [$HOME/.local/share/nestopia]. *)
Theorem set_paths_empty_xdg (host : Host) (w : World) (h : string) :
  getenv host "XDG_DATA_HOME" = Some "" ->
  getenv host "HOME" = Some h ->
  fs_create_directories host "/nestopia/save" = true ->
  fs_create_directories host "/nestopia/state" = true ->
  fs_create_directories host "/nestopia/screenshots" = true ->
  (fs_exists host "NstDatabase.xml" = true -> getenv host "PWD" <> None) ->
  exists w', set_paths host w = Some (tt, w') /\
             basepath (jgm w') = "/nestopia" /\
             basepath (jgm w') <> h ++ "/.local/share/nestopia".
Proof.
  intros Hx _ H1 H2 H3 Hpwd.
  assert (Hne : "/nestopia" <> h ++ "/.local/share/nestopia").
  { intros E. apply (f_equal String.length) in E.
    rewrite string_length_app in E. simpl in E. lia. }
  run. rewrite Hx. simpl. rewrite H1. simpl. rewrite H2. simpl. rewrite H3. simpl.
  destruct (fs_exists host "NstDatabase.xml").
  - destruct (getenv host "PWD"); [| now destruct Hpwd].
    simpl. eexists. split; [reflexivity | split; [reflexivity | exact Hne]].
  - simpl. eexists. split; [reflexivity | split; [reflexivity | exact Hne]].
Qed.

Lemma set_paths_empty_xdg_witness :
  exists w', set_paths (mock_host (Some "") (Some "/home/u")) fresh_world = Some (tt, w') /\
             basepath (jgm w') = "/nestopia" /\
             basepath (jgm w') <> "/home/u" ++ "/.local/share/nestopia".
Proof.
  apply (set_paths_empty_xdg (mock_host (Some "") (Some "/home/u")) fresh_world "/home/u");
    try reflexivity.
  simpl. discriminate.
Defined.

(** ** The settings registry *)

Section Settings.

Variable core : Core.

Lemma get_setting_scan_ok (l : list ptr) (n : string) :
  Forall (fun p => (p < List.length (core_settings core))%nat) l ->
  exists r, get_setting_scan core l n = Some r /\ lookup_result_ok core l n r.
Proof.
  induction 1 as [|p l Hp Hl IH]; simpl.
  - exists None. split; [reflexivity | intros p d []].
  - apply nth_error_Some in Hp.
    destruct (nth_error (core_settings core) p) as [d|] eqn:Hd; [| congruence].
    destruct (String.eqb_spec (name d) n) as [Heq | Hne].
    + exists (Some p). split; [reflexivity |]. simpl. split; [now left |].
      exists d. now split.
    + destruct IH as (r & Hr & Hok). exists r. split; [exact Hr |].
      destruct r as [q|]; simpl in *.
      * destruct Hok as (Hin & Hq). split; [now right | exact Hq].
      * intros q d' [<- | Hin] Hq.
        -- unfold deref in Hq. congruence.
        -- now apply (Hok q d').
Qed.

Lemma record_settings_seq (n : nat) : forall (i : ptr) (l : list ptr),
  record_settings n i l = (l ++ seq i n)%list.
Proof.
  induction n as [|n IH]; intros i l; simpl.
  - now rewrite List.app_nil_r.
  - rewrite IH, <- List.app_assoc. reflexivity.
Qed.

(** The constructor records one pointer per descriptor of the core, in
    order, and every one of them points into the core's array. *)
Lemma constructor_settings (host : Host) (w w' : World) :
  settings (jgm w) = [] ->
  constructor core host w = Some (tt, w') ->
  settings (jgm w') = seq 0 (List.length (core_settings core)) /\
  settings_valid core (jgm w').
Proof.
  intros Hnil. unfold constructor, bind at 1.
  destruct (set_paths host w) as [[[] w1]|] eqn:Hp; [| discriminate].
  assert (Hs : settings (jgm w1) = []).
  { revert Hp. set_paths_cases host; try discriminate; intros [= <-]; exact Hnil. }
  run. simpl. intros [= <-]. simpl. rewrite Hs, record_settings_seq. simpl.
  split; [reflexivity |].
  unfold settings_valid. simpl.
  apply Forall_forall. intros p Hin. apply in_seq in Hin. lia.
Qed.

(** C6: on a manager whose recorded pointers point into the core's array,
    [get_setting n] returns without touching the world; a non-null result is
    one of the recorded pointers and its descriptor's name is exactly [n];
    the result is null only when no recorded descriptor is named [n]. *)
Theorem get_setting_by_name (w : World) (n : string) :
  settings_valid core (jgm w) ->
  exists r, get_setting core n w = Some (r, w) /\
            lookup_result_ok core (settings (jgm w)) n r.
Proof.
  intros Hv. destruct (get_setting_scan_ok (settings (jgm w)) n Hv) as (r & Hr & Hok).
  exists r. split; [| exact Hok].
  run. rewrite Hr. reflexivity.
Qed.

End Settings.

Lemma get_setting_by_name_witness :
  settings_valid (mock_core 1 1) (jgm running_world) /\
  exists r, get_setting (mock_core 1 1) "b" running_world = Some (r, running_world) /\
            lookup_result_ok (mock_core 1 1) (settings (jgm running_world)) "b" r.
Proof.
  assert (H : settings_valid (mock_core 1 1) (jgm running_world)).
  { unfold settings_valid. simpl. repeat constructor. }
  split; [exact H | apply (get_setting_by_name (mock_core 1 1) running_world "b" H)].
Defined.

(** The lookup scenario of the specification: with the core settings named
    [a] and [b], the query [b] finds the second descriptor and [c] finds
    nothing. *)
Example get_setting_scenario :
  get_setting (mock_core 1 1) "b" running_world = Some (Some 1%nat, running_world) /\
  get_setting (mock_core 1 1) "c" running_world = Some (None, running_world).
Proof. split; reflexivity. Qed.

(** ** Decimal rendering of slot numbers *)

Lemma to_uint_normal (p : positive) : Decimal.nzhead (Pos.to_uint p) = Pos.to_uint p.
Proof.
  assert (H : Decimal.unorm (Pos.to_uint p) = Pos.to_uint p).
  { rewrite <- DecimalPos.Unsigned.to_of, DecimalPos.Unsigned.of_to. reflexivity. }
  unfold Decimal.unorm in H.
  destruct (Decimal.nzhead (Pos.to_uint p)) eqn:E; try exact H.
  symmetry in H. now apply DecimalPos.Unsigned.to_uint_nonzero in H.
Qed.

Lemma all_digits_string_of_uint (d : Decimal.uint) :
  all_digits (NilEmpty.string_of_uint d) = true.
Proof. induction d; simpl; auto. Qed.

Lemma unpadded_digits_normal (d : Decimal.uint) :
  d <> Decimal.Nil -> Decimal.nzhead d = d ->
  unpadded_decimal (NilZero.string_of_uint d) = true /\
  unpadded_digits (NilZero.string_of_uint d) = true /\
  String.eqb (NilZero.string_of_uint d) "0" = false.
Proof.
  intros Hnil Hn.
  destruct d; try congruence;
    try (cbn; rewrite all_digits_string_of_uint; repeat split; reflexivity).
  exfalso. exact (nzhead_nonzero _ _ Hn).
Qed.

Lemma to_string_unpadded (z : Z) : unpadded_decimal (to_string z) = true.
Proof.
  destruct z as [|p|p]; [reflexivity | |].
  - apply unpadded_digits_normal;
      [apply DecimalPos.Unsigned.to_uint_nonnil | apply to_uint_normal].
  - destruct (unpadded_digits_normal (Pos.to_uint p)) as (_ & H1 & H2);
      [apply DecimalPos.Unsigned.to_uint_nonnil | apply to_uint_normal |].
    unfold to_string. cbn [Z.to_int NilZero.string_of_int unpadded_decimal].
    cbn. cbn in H1, H2. now rewrite H1, H2.
Qed.

Lemma of_string_to_string (z : Z) : of_string (to_string z) = Some z.
Proof.
  unfold of_string, to_string. rewrite NilZero.isi.
  - simpl. now rewrite DecimalZ.of_to.
  - destruct z; simpl; try discriminate.
    intros [= H]. now apply DecimalPos.Unsigned.to_uint_nonnil in H.
  - destruct z; simpl; try discriminate.
    intros [= H]. now apply DecimalPos.Unsigned.to_uint_nonnil in H.
Qed.

Example to_string_samples :
  to_string 3 = "3" /\ to_string 0 = "0" /\ to_string 10 = "10" /\
  to_string (-7) = "-7" /\ to_string 2147483647 = "2147483647".
Proof. repeat split; reflexivity. Qed.

(** ** Quick slots on a loaded manager *)

Section QuickSlots.

Variable core : Core.

Lemma slotpath_quick_slot_path (m : JGManager) (slot : Z) :
  slotpath m slot = quick_slot_path m slot.
Proof.
  unfold slotpath, quick_slot_path. now rewrite !string_app_assoc.
Qed.

(** [state_qsave] on a loaded manager: one [jg_state_save] with the slot
    path, whose status is returned, then one screen message for it. *)
Lemma state_qsave_runs (w : World) (slot : Z) :
  loaded (jgm w) = true ->
  let result := core_state_save core (trace w) (slotpath (jgm w) slot) in
  exists w', state_qsave core slot w = Some (result, w') /\
             jgm w' = jgm w /\
             emitted w w' [jg_state_save (slotpath (jgm w) slot);
                           jg_log JG_LOG_SCR (save_message result)].
Proof.
  intros H result. subst result. run. rewrite H. simpl. rewrite H. simpl.
  generalize (core_state_save core (trace w) (slotpath (jgm w) slot)).
  intros result.
  destruct result as [|[p|p|]|p]; simpl;
    (eexists; split; [reflexivity | split; [reflexivity |]];
     simpl; now rewrite <- List.app_assoc).
Qed.

Lemma state_qload_runs (w : World) (slot : Z) :
  loaded (jgm w) = true ->
  let result := core_state_load core (trace w) (slotpath (jgm w) slot) in
  exists w', state_qload core slot w = Some (result, w') /\
             jgm w' = jgm w /\
             emitted w w' [jg_state_load (slotpath (jgm w) slot);
                           jg_log JG_LOG_SCR (load_message result)].
Proof.
  intros H result. subst result. run. rewrite H. simpl. rewrite H. simpl.
  generalize (core_state_load core (trace w) (slotpath (jgm w) slot)).
  intros result.
  destruct result as [|[p|p|]|p]; simpl;
    (eexists; split; [reflexivity | split; [reflexivity |]];
     simpl; now rewrite <- List.app_assoc).
Qed.


(** C4: on a loaded manager the file that [state_qsave] and [state_qload]
    hand to the core is [base + "/state/" + gamename + "_" + decimal(slot) +
    ".nst"]; the slot is rendered as an unpadded decimal numeral that reads
    back as the slot. *)
Theorem quick_slot_file (w : World) (slot : Z) :
  loaded (jgm w) = true ->
  let file := basepath (jgm w) ++ "/state/" ++ gamename (jgm w) ++ "_"
              ++ to_string slot ++ ".nst" in
  (exists status w' msg,
      state_qsave core slot w = Some (status, w') /\
      emitted w w' [jg_state_save file; jg_log JG_LOG_SCR msg]) /\
  (exists status w' msg,
      state_qload core slot w = Some (status, w') /\
      emitted w w' [jg_state_load file; jg_log JG_LOG_SCR msg]) /\
  of_string (to_string slot) = Some slot /\
  unpadded_decimal (to_string slot) = true.
Proof.
  intros H file.
  assert (Hf : slotpath (jgm w) slot = file) by apply slotpath_quick_slot_path.
  repeat split.
  - destruct (state_qsave_runs w slot H) as (w' & Hrun & _ & Hem).
    rewrite Hf in Hem. eexists. exists w'. eexists. split; [exact Hrun | exact Hem].
  - destruct (state_qload_runs w slot H) as (w' & Hrun & _ & Hem).
    rewrite Hf in Hem. eexists. exists w'. eexists. split; [exact Hrun | exact Hem].
  - apply of_string_to_string.
  - apply to_string_unpadded.
Qed.

End QuickSlots.


Lemma quick_slot_file_witness :
  loaded (jgm running_world) = true /\
  (exists status w' msg,
      state_qsave (mock_core 1 1) 3 running_world = Some (status, w') /\
      emitted running_world w'
        [jg_state_save "/d/nestopia/state/Alpha_3.nst"; jg_log JG_LOG_SCR msg]) /\
  (exists status w' msg,
      state_qload (mock_core 1 1) 3 running_world = Some (status, w') /\
      emitted running_world w'
        [jg_state_load "/d/nestopia/state/Alpha_3.nst"; jg_log JG_LOG_SCR msg]) /\
  of_string (to_string 3) = Some 3 /\
  unpadded_decimal (to_string 3) = true.
Proof.
  split; [reflexivity |].
  apply (quick_slot_file (mock_core 1 1) running_world 3). reflexivity.
Defined.

(** The three statuses, run: the messages are the literal strings. *)
Example quick_slot_message_samples :
  (exists w', state_qsave (mock_core 1 1) 3 running_world = Some (1, w') /\
     trace w' = [jg_init; jg_state_save "/d/nestopia/state/Alpha_3.nst";
                 jg_log JG_LOG_SCR "State Saved"]) /\
  (exists w', state_qsave (mock_core 1 0) 3 running_world = Some (0, w') /\
     trace w' = [jg_init; jg_state_save "/d/nestopia/state/Alpha_3.nst";
                 jg_log JG_LOG_SCR "State Save Failed"]) /\
  (exists w', state_qsave (mock_core 1 (-1)) 3 running_world = Some (-1, w') /\
     trace w' = [jg_init; jg_state_save "/d/nestopia/state/Alpha_3.nst";
                 jg_log JG_LOG_SCR "State Save Unknown"]) /\
  (exists w', state_qload (mock_core 1 1) 12 running_world = Some (1, w') /\
     trace w' = [jg_init; jg_state_load "/d/nestopia/state/Alpha_12.nst";
                 jg_log JG_LOG_SCR "State Loaded"]) /\
  (exists w', state_qload (mock_core 1 0) 12 running_world = Some (0, w') /\
     trace w' = [jg_init; jg_state_load "/d/nestopia/state/Alpha_12.nst";
                 jg_log JG_LOG_SCR "State Load Failed"]) /\
  (exists w', state_qload (mock_core 1 2) 12 running_world = Some (2, w') /\
     trace w' = [jg_init; jg_state_load "/d/nestopia/state/Alpha_12.nst";
                 jg_log JG_LOG_SCR "State Load Unknown"]).
Proof. repeat split; eexists; split; vm_compute; reflexivity. Qed.

(** ** The frametime callback *)

#[local] Set Warnings "-inexact-float".

(** Shifting by a negative amount divides by a power of two, rounding
    toward minus infinity. *)
Lemma shiftl_floor (a e : Z) :
  e < 0 ->
  Z.shiftl a e * 2 ^ (- e) <= a < (Z.shiftl a e + 1) * 2 ^ (- e).
Proof.
  intros He.
  replace (Z.shiftl a e) with (Z.shiftr a (- e))
    by (unfold Z.shiftr; now rewrite Z.opp_involutive).
  rewrite Z.shiftr_div_pow2 by lia.
  assert (Hp : 0 < 2 ^ (- e)) by (apply Z.pow_pos_nonneg; lia).
  pose proof (Z.div_mod a (2 ^ (- e)) ltac:(lia)) as Hdm.
  pose proof (Z.mod_pos_bound a (2 ^ (- e)) Hp) as Hb.
  nia.
Qed.

(** [floor_of_double] is the floor of the exact value [sm * 2^e] of a
    finite double with signed significand [sm]. *)
Lemma floor_of_double_exact (d : float) (s : bool) (m : positive) (e z : Z) :
  Prim2SF d = S754_finite s m e ->
  floor_of_double d = Some z ->
  let sm := if s then Z.neg m else Z.pos m in
  (0 <= e -> z = sm * 2 ^ e) /\
  (e < 0 -> z * 2 ^ (- e) <= sm < (z + 1) * 2 ^ (- e)).
Proof.
  unfold floor_of_double. intros -> [= <-]. split.
  - intros He. now apply Z.shiftl_mul_pow2.
  - intros He. now apply shiftl_floor.
Qed.

(** [int_of_double] keeps the sign and rounds the magnitude down: it
    truncates toward zero. *)
Lemma int_of_double_truncates (d : float) (s : bool) (m : positive) (e z : Z) :
  Prim2SF d = S754_finite s m e ->
  int_of_double d = Some z ->
  (if s then z <= 0 else 0 <= z) /\
  (0 <= e -> Z.abs z = Z.pos m * 2 ^ e) /\
  (e < 0 -> Z.abs z * 2 ^ (- e) <= Z.pos m < (Z.abs z + 1) * 2 ^ (- e)).
Proof.
  unfold int_of_double. intros ->. cbv zeta.
  assert (Hm : 0 <= Z.shiftl (Z.pos m) e) by (apply Z.shiftl_nonneg; lia).
  destruct (_ && _); [| discriminate]. intros [= <-].
  assert (Ha : Z.abs (if s then - Z.shiftl (Z.pos m) e else Z.shiftl (Z.pos m) e)
               = Z.shiftl (Z.pos m) e) by (destruct s; lia).
  rewrite Ha. split; [destruct s; lia |].
  split; intros He; [now apply Z.shiftl_mul_pow2 | now apply shiftl_floor].
Qed.

(** The conversion computes the truncation: sign times shifted magnitude
    is the signed significand scaled, or divided rounding toward zero. *)
Lemma shifted_magnitude_truncates (s : bool) (m : positive) (e : Z) :
  (if s then - Z.shiftl (Z.pos m) e else Z.shiftl (Z.pos m) e) =
  (if 0 <=? e then (if s then Z.neg m else Z.pos m) * 2 ^ e
   else Z.quot (if s then Z.neg m else Z.pos m) (2 ^ (- e))).
Proof.
  destruct (0 <=? e) eqn:He.
  - apply Z.leb_le in He. rewrite Z.shiftl_mul_pow2 by exact He.
    destruct s; [| reflexivity].
    now rewrite <- Z.mul_opp_l, Pos2Z.opp_pos.
  - apply Z.leb_gt in He.
    assert (Hp : 0 < 2 ^ (- e)) by (apply Z.pow_pos_nonneg; lia).
    replace (Z.shiftl (Z.pos m) e) with (Z.shiftr (Z.pos m) (- e))
      by (unfold Z.shiftr; now rewrite Z.opp_involutive).
    rewrite Z.shiftr_div_pow2 by lia.
    rewrite <- Z.quot_div_nonneg by lia.
    destruct s; [| reflexivity].
    rewrite <- Pos2Z.opp_pos, Z.quot_opp_l by lia. reflexivity.
Qed.

(** Truncation against floor: they agree for a sum that is not negative,
    and otherwise the truncation is the floor or one above it. *)
Lemma truncation_vs_floor (d : float) (z f : Z) :
  truncation_of_double d = Some z ->
  floor_of_double d = Some f ->
  f <= z <= f + 1 /\ (0 <= f -> z = f).
Proof.
  unfold truncation_of_double, floor_of_double.
  destruct (Prim2SF d) as [s|s| |s m e]; try discriminate.
  - intros [= <-] [= <-]. lia.
  - cbv zeta. rewrite <- shifted_magnitude_truncates. intros [= <-] [= <-].
    destruct s; [| lia].
    destruct (Z.le_gt_cases 0 e) as [He | He].
    + rewrite !Z.shiftl_mul_pow2 by exact He.
      rewrite <- Pos2Z.opp_pos, Z.mul_opp_l. lia.
    + pose proof (shiftl_floor (Z.neg m) e He) as Hn.
      pose proof (shiftl_floor (Z.pos m) e He) as Hq.
      assert (Hp : 0 < 2 ^ (- e)) by (apply Z.pow_pos_nonneg; lia).
      assert (Hm : Z.neg m = - Z.pos m) by reflexivity.
      nia.
Qed.

(** C5, as amended: whenever the integer part of [interval + 0.5], the sum
    in double arithmetic, fits an [int], the callback returns and
    [get_frametime] then gives that sum truncated toward zero; nothing else
    in the world changes.  For a sum that is not negative this is its floor;
    for a negative one it is the floor or one above it. *)
Theorem jg_frametime_rounds (interval : float) (z : Z) (w : World) :
  truncation_of_double (interval + 0.5)%float = Some z ->
  INT_MIN <= z <= INT_MAX ->
  (exists w', jg_frametime interval w = Some (tt, w') /\
              get_frametime w' = Some (z, w') /\
              jgm w' = jgm w /\ trace w' = trace w) /\
  (forall f, floor_of_double (interval + 0.5)%float = Some f ->
             f <= z <= f + 1 /\ (0 <= f -> z = f)).
Proof.
  intros Ht Hr. split.
  - revert Ht. unfold jg_frametime, truncation_of_double, int_of_double.
    destruct (Prim2SF (interval + 0.5)) as [s|s| |s m e]; try discriminate.
    + intros [= <-]. eexists. repeat split.
    + cbv zeta. rewrite shifted_magnitude_truncates. intros [= ->].
      destruct Hr as [Hlo Hhi]. apply Z.leb_le in Hlo, Hhi.
      rewrite Hlo, Hhi. simpl. eexists. repeat split.
  - intros f Hf. exact (truncation_vs_floor _ z f Ht Hf).
Qed.

Lemma jg_frametime_rounds_witness :
  (truncation_of_double (16.8 + 0.5)%float = Some 17 /\
   exists w', jg_frametime 16.8%float fresh_world = Some (tt, w') /\
              get_frametime w' = Some (17, w') /\
              jgm w' = jgm fresh_world /\ trace w' = trace fresh_world) /\
  (truncation_of_double (-1.5 + 0.5)%float = Some (-1) /\
   exists w', jg_frametime (-1.5)%float fresh_world = Some (tt, w') /\
              get_frametime w' = Some (-1, w') /\
              jgm w' = jgm fresh_world /\ trace w' = trace fresh_world).
Proof.
  assert (H1 : truncation_of_double (16.8 + 0.5)%float = Some 17) by (vm_compute; reflexivity).
  assert (H2 : truncation_of_double (-1.5 + 0.5)%float = Some (-1)) by (vm_compute; reflexivity).
  assert (R1 : INT_MIN <= 17 <= INT_MAX) by (unfold INT_MIN, INT_MAX; lia).
  assert (R2 : INT_MIN <= -1 <= INT_MAX) by (unfold INT_MIN, INT_MAX; lia).
  split.
  - split; [exact H1 | exact (proj1 (jg_frametime_rounds 16.8%float 17 fresh_world H1 R1))].
  - split; [exact H2 | exact (proj1 (jg_frametime_rounds (-1.5)%float (-1) fresh_world H2 R2))].
Defined.

(** C5 as stated fails for a negative sum: for the interval [-1] the sum is
    [-0.5], whose floor is [-1], while the conversion to [int] truncates it
    to [0]. *)
Lemma jg_frametime_negative :
  floor_of_double (-1 + 0.5)%float = Some (-1) /\
  exists w', jg_frametime (-1)%float fresh_world = Some (tt, w') /\
             get_frametime w' = Some (0, w').
Proof.
  split; [vm_compute; reflexivity |].
  eexists. split; vm_compute; reflexivity.
Qed.

(** The callback scenario of the specification, and the cases the language
    leaves undefined. *)
Example jg_frametime_samples :
  option_map (fun r => frametime (snd r)) (jg_frametime 16.8%float fresh_world) = Some 17 /\
  option_map (fun r => frametime (snd r)) (jg_frametime 59.4%float fresh_world) = Some 59 /\
  jg_frametime nan fresh_world = None /\
  jg_frametime infinity fresh_world = None /\
  jg_frametime 4e9%float fresh_world = None.
Proof. repeat split; vm_compute; reflexivity. Qed.

(** The sum itself is rounded: the largest double below one half is taken
    to 1, although its exact sum with one half is below 1. *)
Example jg_frametime_below_half :
  (0.49999999999999994 <? 0.5)%float = true /\
  option_map (fun r => frametime (snd r))
             (jg_frametime 0.49999999999999994%float fresh_world) = Some 1.
Proof. split; vm_compute; reflexivity. Qed.

(** ** Scenarios run end to end *)

(** Construction with [XDG_DATA_HOME=/d]: the directories are created, the
    paths registered, the two settings recorded, the callbacks set and the
    core initialised, in this order. *)
Example constructor_scenario :
  exists w', constructor (mock_core 1 1) (mock_host (Some "/d") None) fresh_world = Some (tt, w') /\
    basepath (jgm w') = "/d/nestopia" /\
    settings (jgm w') = [0%nat; 1%nat] /\
    loaded (jgm w') = false /\
    trace w' =
      [create_directories "/d/nestopia/save";
       create_directories "/d/nestopia/state";
       create_directories "/d/nestopia/screenshots";
       jg_set_paths {| pi_base := "/d/nestopia"; pi_bios := "/d/nestopia";
                       pi_user := "/d/nestopia"; pi_save := "/d/nestopia/save";
                       pi_core := "/usr/share/nestopia" |};
       jg_get_settings; jg_set_cb_frametime; jg_set_cb_log; jg_init].
Proof. eexists. split; [vm_compute; reflexivity | repeat split]. Qed.

(** Without [XDG_DATA_HOME] and without [HOME] the constructor has no
    defined behaviour. *)
Example constructor_without_home :
  constructor (mock_core 1 1) (mock_host None None) fresh_world = None.
Proof. reflexivity. Qed.

(** Load, then unload: the core sees set-gameinfo, game-load and one
    game-unload; loading again while a game is held unloads it first. *)
Example load_then_unload_scenario :
  let core := mock_core 1 1 in
  let host := mock_host (Some "/d") None in
  exists w1 w2 w3,
    load_game core host "/roms/Alpha.nes" [] fresh_world = Some (tt, w1) /\
    loaded (jgm w1) = true /\ gamename (jgm w1) = "Alpha" /\
    unload_game w1 = Some (tt, w2) /\
    loaded (jgm w2) = false /\
    occurrences is_game_unload (trace w2) = 1%nat /\
    load_game core host "/roms/Alpha.nes" [] w1 = Some (tt, w3) /\
    loaded (jgm w3) = true /\
    filter is_core_call (trace w3) =
      [jg_set_gameinfo (gameinfo_of host "/roms/Alpha.nes" []); jg_game_load;
       jg_game_unload;
       jg_set_gameinfo (gameinfo_of host "/roms/Alpha.nes" []); jg_game_load].
Proof.
  do 3 eexists.
  split; [vm_compute; reflexivity |].
  split; [reflexivity |]. split; [reflexivity |].
  split; [vm_compute; reflexivity |].
  split; [reflexivity |]. split; [reflexivity |].
  split; [vm_compute; reflexivity |].
  split; reflexivity.
Qed.

(** ** One call, whatever it is *)

Ltac run_call :=
  cbv [exec discard]; run.

Lemma occurrences_app (p : Event -> bool) (l l' : list Event) :
  occurrences p (l ++ l') = (occurrences p l + occurrences p l')%nat.
Proof. unfold occurrences. now rewrite filter_app, length_app. Qed.

Ltac close_step Hl :=
  do 2 eexists; (split; [reflexivity |]); simpl; rewrite ?Hl;
  (split; [first [now rewrite <- ?List.app_assoc | symmetry; apply List.app_nil_r] |]);
  (split; [repeat split |]);
  (split; [intros; simpl; first [reflexivity | congruence] |]);
  (split; [intros; simpl; first [reflexivity | congruence] |]);
  (split; [intros; simpl; first [now repeat split | congruence] |]);
  rewrite ?occurrences_app; cbn [occurrences filter List.length is_game_unload is_game_load];
  lia.

Lemma exec_step (core : Core) (host : Host) (c : Command) (w : World) :
  settings_valid core (jgm w) ->
  exists w' es,
    exec core host c w = Some (tt, w') /\
    emitted w w' es /\
    same_installation w w' /\
    (is_load_command c = false -> loaded (jgm w') = next_loaded (loaded (jgm w)) c false) /\
    (is_load_command c = false -> loaded (jgm w) = false ->
       filter is_session_call es = []) /\
    (is_load_command c = false -> same_identity w w') /\
    (unloads_covered w -> unloads_covered w').
Proof.
  intros Hv. unfold unloads_covered, same_installation, same_identity.
  destruct c; run_call; simpl.
  all: try (destruct (get_setting_scan_ok core _ n Hv) as (r & Hr & _); rewrite Hr).
  all: destruct (loaded (jgm w)) eqn:Hl; simpl; rewrite ?Hl; simpl.
  all: try match goal with
           | |- context [if ?b =? 0 then _ else _] =>
               destruct (b =? 0) eqn:?; simpl; rewrite ?Hl; simpl
           end.
  all: try match goal with
           | |- context [match ?r with Z0 => _ | Zpos _ => _ | Zneg _ => _ end] =>
               destruct r as [|[?|?|]|?]; simpl
           end.
  all: close_step Hl.
Qed.

Lemma same_installation_trans (w1 w2 w3 : World) :
  same_installation w1 w2 -> same_installation w2 w3 -> same_installation w1 w3.
Proof.
  unfold same_installation.
  intros (a1 & a2 & a3 & a4 & a5) (b1 & b2 & b3 & b4 & b5).
  repeat split; congruence.
Qed.

Lemma next_loaded_idle (c : Command) : next_loaded false c false = false.
Proof. destruct c; reflexivity. Qed.

(** The destructor's effect on the trace and on [loaded]. *)
Lemma destructor_ends (w : World) :
  exists w', destructor w = Some (tt, w') /\
             emitted w w' (jg_deinit :: if loaded (jgm w) then [jg_game_unload] else []) /\
             loaded (jgm w') = false.
Proof.
  run. simpl. destruct (loaded (jgm w)) eqn:H; simpl; eexists;
    (split; [reflexivity | split; [simpl; now rewrite <- ?List.app_assoc | simpl; auto]]).
Qed.

(** ** Arbitrary sequences of calls *)

Lemma exec_all_steps (core : Core) (host : Host) (cs : list Command) :
  forall w, settings_valid core (jgm w) ->
  exists w' es,
    exec_all core host cs w = Some (tt, w') /\
    emitted w w' es /\
    same_installation w w' /\
    (forallb (fun c => negb (is_load_command c)) cs = true ->
     loaded (jgm w) = false ->
     loaded (jgm w') = false /\ filter is_session_call es = []) /\
    (forallb (fun c => negb (is_load_command c)) cs = true -> same_identity w w') /\
    (unloads_covered w -> unloads_covered w').
Proof.
  induction cs as [|c cs IH]; intros w Hv.
  - exists w, []. split; [reflexivity |].
    split; [unfold emitted; now rewrite List.app_nil_r |].
    split; [now repeat split |]. split; [now split |].
    split; [intros _; now repeat split | trivial].
  - destruct (exec_step core host c w Hv)
      as (w1 & es1 & Hrun & Hem & Hsame & Hld & Hquiet & Hid & Hcov).
    assert (Hv1 : settings_valid core (jgm w1)).
    { unfold settings_valid in *. destruct Hsame as (_ & _ & _ & _ & Hs). now rewrite Hs. }
    destruct (IH w1 Hv1) as (w' & es2 & Hrun' & Hem' & Hsame' & Hquiet' & Hid' & Hcov').
    exists w', (es1 ++ es2)%list.
    split; [cbn [exec_all]; unfold bind; now rewrite Hrun |].
    split; [unfold emitted in *; now rewrite Hem', Hem, List.app_assoc |].
    split; [now apply (same_installation_trans w w1 w') |].
    split; [| split; [| now auto]].
    + cbn [forallb]. intros Hno Hl. apply andb_prop in Hno. destruct Hno as [Hc Hcs].
      apply negb_true_iff in Hc.
      assert (Hl1 : loaded (jgm w1) = false).
      { rewrite (Hld Hc), Hl. apply next_loaded_idle. }
      destruct (Hquiet' Hcs Hl1) as (Hl' & Hq').
      split; [exact Hl' |].
      now rewrite filter_app, (Hquiet Hc Hl), Hq'.
    + cbn [forallb]. intros Hno. apply andb_prop in Hno. destruct Hno as [Hc Hcs].
      apply negb_true_iff in Hc.
      specialize (Hid Hc). specialize (Hid' Hcs). unfold same_identity in *.
      destruct Hid as (a1 & a2 & a3 & a4 & a5). destruct Hid' as (b1 & b2 & b3 & b4 & b5).
      repeat split; congruence.
Qed.

(** X1: Whatever the frontend calls after construction, in whatever order, every
    call returns, the trace only grows, and the manager's paths, its
    registered path record and its recorded settings stay what they were. *)
Theorem calls_keep_installation (core : Core) (host : Host) (cs : list Command) (w : World) :
  settings_valid core (jgm w) ->
  exists w' es,
    exec_all core host cs w = Some (tt, w') /\
    emitted w w' es /\
    same_installation w w' /\
    settings_valid core (jgm w').
Proof.
  intros Hv.
  destruct (exec_all_steps core host cs w Hv) as (w' & es & Hrun & Hem & Hsame & _).
  exists w', es. repeat split; try assumption; try apply Hsame.
  unfold settings_valid in *. destruct Hsame as (_ & _ & _ & _ & Hs). now rewrite Hs.
Qed.

(** X2: As long as [load_game] is not called, a manager without a game stays
    without one, and the core sees no call that acts on a game: no unload,
    reset, state load or save, media change or rehash. *)
Theorem no_load_no_session_calls (core : Core) (host : Host) (cs : list Command) (w : World) :
  settings_valid core (jgm w) ->
  forallb (fun c => negb (is_load_command c)) cs = true ->
  loaded (jgm w) = false ->
  exists w' es,
    exec_all core host cs w = Some (tt, w') /\
    emitted w w' es /\
    loaded (jgm w') = false /\
    filter is_session_call es = [].
Proof.
  intros Hv Hno Hl.
  destruct (exec_all_steps core host cs w Hv) as (w' & es & Hrun & Hem & _ & Hq & _ & _).
  destruct (Hq Hno Hl) as (Hl' & Hq').
  exists w', es. now repeat split.
Qed.

(** X3: The manager never asks the core to unload more often than it asked it
    to load: this holds after any sequence of calls, and still after the
    destructor that ends it, which leaves no game loaded. *)
Theorem unloads_never_exceed_loads (core : Core) (host : Host) (cs : list Command) (w : World) :
  settings_valid core (jgm w) ->
  unloads_covered w ->
  exists w' w'',
    exec_all core host cs w = Some (tt, w') /\
    destructor w' = Some (tt, w'') /\
    unloads_covered w' /\
    loaded (jgm w'') = false /\
    (occurrences is_game_unload (trace w'') <= occurrences is_game_load (trace w''))%nat.
Proof.
  intros Hv Hc.
  destruct (exec_all_steps core host cs w Hv) as (w' & es & Hrun & _ & _ & _ & _ & Hcov).
  specialize (Hcov Hc).
  destruct (destructor_ends w') as (w'' & Hd & Hem & Hl').
  exists w', w''. repeat split; try assumption.
  unfold unloads_covered, emitted in *. rewrite Hem, !occurrences_app.
  destruct (loaded (jgm w')); cbn [occurrences filter List.length is_game_unload is_game_load];
    cbn in Hcov; lia.
Qed.

Lemma fresh_settings_valid (core : Core) : settings_valid core (jgm fresh_world).
Proof. unfold settings_valid. simpl. constructor. Qed.

Lemma calls_keep_installation_witness :
  settings_valid (mock_core 1 1) (jgm fresh_world) /\
  exists w' es,
    exec_all (mock_core 1 1) (mock_host (Some "/d") None) sample_session fresh_world
      = Some (tt, w') /\
    emitted fresh_world w' es /\
    same_installation fresh_world w' /\
    settings_valid (mock_core 1 1) (jgm w').
Proof.
  split; [apply fresh_settings_valid |].
  apply (calls_keep_installation (mock_core 1 1) (mock_host (Some "/d") None)
           sample_session fresh_world (fresh_settings_valid _)).
Defined.

Lemma no_load_no_session_calls_witness :
  forallb (fun c => negb (is_load_command c)) sample_idle_calls = true /\
  loaded (jgm fresh_world) = false /\
  exists w' es,
    exec_all (mock_core 1 1) (mock_host (Some "/d") None) sample_idle_calls fresh_world
      = Some (tt, w') /\
    emitted fresh_world w' es /\
    loaded (jgm w') = false /\
    filter is_session_call es = [].
Proof.
  split; [reflexivity | split; [reflexivity |]].
  apply (no_load_no_session_calls (mock_core 1 1) (mock_host (Some "/d") None)
           sample_idle_calls fresh_world (fresh_settings_valid _)); reflexivity.
Defined.

Lemma unloads_never_exceed_loads_witness :
  unloads_covered fresh_world /\
  exists w' w'',
    exec_all (mock_core 1 1) (mock_host (Some "/d") None) sample_session fresh_world
      = Some (tt, w') /\
    destructor w' = Some (tt, w'') /\
    unloads_covered w' /\
    loaded (jgm w'') = false /\
    (occurrences is_game_unload (trace w'') <= occurrences is_game_load (trace w''))%nat.
Proof.
  assert (H : unloads_covered fresh_world) by (unfold unloads_covered; simpl; lia).
  split; [exact H |].
  apply (unloads_never_exceed_loads (mock_core 1 1) (mock_host (Some "/d") None)
           sample_session fresh_world (fresh_settings_valid _) H).
Defined.

(** The sample session, run: what the core saw, in order. *)
Example sample_session_trace :
  option_map (fun r => filter is_core_call (trace (snd r)))
    (exec_all (mock_core 1 1) (mock_host (Some "/d") None) sample_session fresh_world)
  = Some [jg_set_gameinfo (gameinfo_of (mock_host (Some "/d") None) "/roms/Alpha.nes" []);
          jg_game_load; jg_state_save "/state/Alpha_3.nst"; jg_exec_frame; jg_game_unload].
Proof. vm_compute. reflexivity. Qed.

(** ** Unloading and loading *)

(** X6: [unload_game] always leaves the manager without a game; it calls
    [jg_game_unload] exactly when a game was held, keeps the name of the
    game that was held, and calling it again right after does nothing. *)
Theorem unload_game_idempotent (w : World) :
  exists w', unload_game w = Some (tt, w') /\
             loaded (jgm w') = false /\
             emitted w w' (if loaded (jgm w) then [jg_game_unload] else []) /\
             gamename (jgm w') = gamename (jgm w) /\
             silent_noop unload_game w'.
Proof.
  unfold silent_noop. run. destruct (loaded (jgm w)) eqn:H; simpl.
  - eexists. split; [reflexivity |]. simpl. repeat split.
  - exists w. rewrite H. split; [reflexivity |]. repeat split; try assumption.
    now rewrite List.app_nil_r.
Qed.

(** X7: Whether the core accepts the game or not, [load_game] leaves the
    manager's identity strings and its game record describing the file it
    was given: the path verbatim, the stem and file name the path library
    derives, the hasher's digests, the bytes and their count.  After a
    failed load these are the values of the file that failed.  The
    manager's paths and recorded settings are untouched. *)
Theorem load_game_identity (core : Core) (host : Host) (w : World)
        (filename : string) (game : list Byte.byte) :
  exists w', load_game core host filename game w = Some (tt, w') /\
             identity_of (jgm w') (gameinfo_of host filename game) /\
             gamepath (jgm w') = filename /\
             gamename (jgm w') = path_stem host filename /\
             gamefname (jgm w') = path_filename host filename /\
             gamemd5 (jgm w') = Hasher_md5 host game /\
             gi_data (gameinfo (jgm w')) = game /\
             gi_size (gameinfo (jgm w')) = List.length game /\
             gi_crc (gameinfo (jgm w')) = Hasher_crc host game /\
             same_installation w w'.
Proof.
  unfold identity_of, same_installation. run. simpl.
  destruct (loaded (jgm w)) eqn:H; simpl;
    destruct (core_game_load core _ =? 0) eqn:R; simpl; rewrite ?H; simpl;
    eexists; (split; [reflexivity |]); simpl; repeat split.
Qed.

(** X8: Loading while a game is held gives the old game up first: the core sees
    game-unload, set-gameinfo, game-load, in this order, and the manager is
    loaded afterwards exactly when the core accepted the new game.  When it
    did not, the manager holds no game at all. *)
Theorem load_game_replaces_running_game (core : Core) (host : Host) (w : World)
        (filename : string) (game : list Byte.byte) :
  loaded (jgm w) = true ->
  let g := gameinfo_of host filename game in
  exists w', load_game core host filename game w = Some (tt, w') /\
             emitted w w' [jg_game_unload; jg_set_gameinfo g; jg_game_load] /\
             loaded (jgm w') =
               negb (core_game_load core (trace w ++ [jg_game_unload; jg_set_gameinfo g]) =? 0).
Proof.
  intros H g.
  destruct (load_game_runs core host w filename game) as (w' & Hrun & Hem & Hl & _).
  rewrite H in Hem, Hl. exists w'. repeat split; assumption.
Qed.

Lemma load_game_replaces_running_game_witness :
  loaded (jgm running_world) = true /\
  exists w', load_game (mock_core 0 1) (mock_host (Some "/d") None) "/roms/Beta.nes" [] running_world
               = Some (tt, w') /\
             emitted running_world w'
               [jg_game_unload;
                jg_set_gameinfo (gameinfo_of (mock_host (Some "/d") None) "/roms/Beta.nes" []);
                jg_game_load] /\
             loaded (jgm w') =
               negb (core_game_load (mock_core 0 1)
                       (trace running_world ++
                        [jg_game_unload;
                         jg_set_gameinfo (gameinfo_of (mock_host (Some "/d") None) "/roms/Beta.nes" [])])
                     =? 0).
Proof.
  split; [reflexivity |].
  apply (load_game_replaces_running_game (mock_core 0 1) (mock_host (Some "/d") None)
           running_world "/roms/Beta.nes" []). reflexivity.
Defined.

(** ** Path resolution, beyond the base path *)


(** A base path under which nothing can be created: the constructor does
    not return. *)
Example set_paths_uncreatable :
  set_paths (mock_host (Some "/dev/null") (Some "/home/u")) fresh_world = None /\
  constructor (mock_core 1 1) (mock_host (Some "/dev/null") (Some "/home/u")) fresh_world = None.
Proof. split; reflexivity. Qed.

(** X10: When [set_paths] returns, the save path is the base path followed by
    [/save]; the directories [save], [state] and [screenshots] were created
    under the base path, in this order, before the one [jg_set_paths] call;
    the record given to the core is the one the manager keeps, with base,
    bios and user all the base path; the core path is [$PWD] when
    [NstDatabase.xml] is found in the current directory and [NST_DATADIR]
    otherwise.  Game, settings and frametime are not touched. *)
Theorem set_paths_layout (host : Host) (w w' : World) :
  set_paths host w = Some (tt, w') ->
  let b := basepath (jgm w') in
  savepath (jgm w') = b ++ "/save" /\
  emitted w w' [create_directories (b ++ "/save");
                create_directories (b ++ "/state");
                create_directories (b ++ "/screenshots");
                jg_set_paths (pathinfo (jgm w'))] /\
  pathinfo (jgm w') = {| pi_base := b; pi_bios := b; pi_user := b;
                         pi_save := savepath (jgm w'); pi_core := corepath (jgm w') |} /\
  (if fs_exists host "NstDatabase.xml"
   then getenv host "PWD" = Some (corepath (jgm w'))
   else corepath (jgm w') = NST_DATADIR host) /\
  loaded (jgm w') = loaded (jgm w) /\
  gameinfo (jgm w') = gameinfo (jgm w) /\
  gamename (jgm w') = gamename (jgm w) /\
  settings (jgm w') = settings (jgm w) /\
  frametime w' = frametime w.
Proof.
  set_paths_cases host; try discriminate;
    intros [= <-]; simpl; rewrite <- ?List.app_assoc; repeat split.
Qed.

Lemma set_paths_layout_witness :
  exists w',
    set_paths (mock_host (Some "/d") None) fresh_world = Some (tt, w') /\
    savepath (jgm w') = basepath (jgm w') ++ "/save" /\
    trace w' = [create_directories "/d/nestopia/save";
                create_directories "/d/nestopia/state";
                create_directories "/d/nestopia/screenshots";
                jg_set_paths (pathinfo (jgm w'))] /\
    corepath (jgm w') = "/usr/share/nestopia".
Proof.
  eexists. split; [vm_compute; reflexivity |].
  destruct (set_paths_layout (mock_host (Some "/d") None) fresh_world _ eq_refl)
    as (Hs & He & _ & Hc & _).
  split; [exact Hs | split; [exact He | exact Hc]].
Defined.

(** ** Construction *)

Lemma set_paths_frame (host : Host) (w w1 : World) :
  set_paths host w = Some (tt, w1) ->
  loaded (jgm w1) = loaded (jgm w) /\
  settings (jgm w1) = settings (jgm w) /\
  frametime w1 = frametime w.
Proof.
  set_paths_cases host; try discriminate; intros [= <-]; simpl; repeat split.
Qed.

(** X11: The constructor returns exactly when [set_paths] does, whatever status
    [jg_init] reports.  After the paths it asks the core for its settings,
    registers the frametime and log callbacks and only then calls [jg_init];
    it appends one pointer per core setting, in the core's order, keeps the
    paths [set_paths] resolved and loads no game. *)
Theorem constructor_sequence (core : Core) (host : Host) (w : World) :
  (set_paths host w = None -> constructor core host w = None) /\
  (forall w1, set_paths host w = Some (tt, w1) ->
     exists w', constructor core host w = Some (tt, w') /\
                emitted w1 w' [jg_get_settings; jg_set_cb_frametime; jg_set_cb_log; jg_init] /\
                settings (jgm w') =
                  (settings (jgm w) ++ seq 0 (List.length (core_settings core)))%list /\
                loaded (jgm w') = loaded (jgm w) /\
                basepath (jgm w') = basepath (jgm w1) /\
                pathinfo (jgm w') = pathinfo (jgm w1)).
Proof.
  split.
  - intros H. unfold constructor, bind at 1. now rewrite H.
  - intros w1 H. destruct (set_paths_frame host w w1 H) as (Hl & Hs & Hf).
    unfold constructor, bind at 1. rewrite H. run. simpl.
    eexists. split; [reflexivity |]. simpl.
    rewrite record_settings_seq, Hs, Hl, <- !List.app_assoc. repeat split.
Qed.

Lemma constructor_sequence_witness :
  exists w1 w',
    set_paths (mock_host (Some "/d") None) fresh_world = Some (tt, w1) /\
    constructor (mock_core 0 1) (mock_host (Some "/d") None) fresh_world = Some (tt, w') /\
    emitted w1 w' [jg_get_settings; jg_set_cb_frametime; jg_set_cb_log; jg_init] /\
    settings (jgm w') = [0%nat; 1%nat] /\
    loaded (jgm w') = false.
Proof.
  assert (H1 : exists w1, set_paths (mock_host (Some "/d") None) fresh_world = Some (tt, w1))
    by (eexists; vm_compute; reflexivity).
  destruct H1 as (w1 & H1).
  destruct (proj2 (constructor_sequence (mock_core 0 1) (mock_host (Some "/d") None) fresh_world)
              w1 H1) as (w' & Hc & He & Hs & Hl & _).
  exists w1, w'. split; [exact H1 |]. split; [exact Hc |]. split; [exact He |].
  split; [exact Hs | exact Hl].
Defined.

(** ** Lookup order *)

Lemma names_eqb (core : Core) (n : string) (p : ptr) (d : jg_setting_t) :
  nth_error (core_settings core) p = Some d ->
  names core n p = String.eqb (name d) n.
Proof. intros H. unfold names, deref. now rewrite H. Qed.

Lemma get_setting_scan_first (core : Core) (n : string) (l : list ptr) :
  Forall (fun p => (p < List.length (core_settings core))%nat) l ->
  exists r, get_setting_scan core l n = Some r /\
            match r with
            | Some p => first_match (names core n) l p
            | None => forallb (fun q => negb (names core n q)) l = true
            end.
Proof.
  induction 1 as [|p l Hp Hl IH]; simpl.
  - exists None. now split.
  - apply nth_error_Some in Hp.
    destruct (nth_error (core_settings core) p) as [d|] eqn:Hd; [| congruence].
    rewrite (names_eqb core n p d Hd).
    destruct (String.eqb (name d) n) eqn:E.
    + exists (Some p). split; [reflexivity |].
      exists [], l. split; [reflexivity |]. split; [| reflexivity].
      now rewrite (names_eqb core n p d Hd).
    + destruct IH as (r & Hr & Hok). exists r. split; [exact Hr |].
      destruct r as [q|]; [| exact Hok].
      destruct Hok as (before & after & -> & Hq & Hb).
      exists (p :: before), after. split; [reflexivity |]. split; [exact Hq |].
      simpl. now rewrite (names_eqb core n p d Hd), E.
Qed.

(** X13: When several recorded descriptors carry the queried name, [get_setting]
    returns the first of them in recording order: every pointer recorded
    before the returned one has another name.  Null is returned only when
    every recorded pointer has another name. *)
Theorem get_setting_first_match (core : Core) (w : World) (n : string) :
  settings_valid core (jgm w) ->
  exists r, get_setting core n w = Some (r, w) /\
            match r with
            | Some p => first_match (names core n) (settings (jgm w)) p
            | None => forallb (fun q => negb (names core n q)) (settings (jgm w)) = true
            end.
Proof.
  intros Hv. destruct (get_setting_scan_first core n (settings (jgm w)) Hv) as (r & Hr & Hok).
  exists r. split; [| exact Hok]. run. now rewrite Hr.
Qed.

Lemma get_setting_first_match_witness :
  settings_valid twin_core (jgm twin_world) /\
  exists r, get_setting twin_core "b" twin_world = Some (r, twin_world) /\
            match r with
            | Some p => first_match (names twin_core "b") (settings (jgm twin_world)) p
            | None => forallb (fun q => negb (names twin_core "b" q)) (settings (jgm twin_world)) = true
            end.
Proof.
  assert (H : settings_valid twin_core (jgm twin_world)).
  { unfold settings_valid. simpl. repeat constructor. }
  split; [exact H | apply (get_setting_first_match twin_core twin_world "b" H)].
Defined.

Example get_setting_twins :
  get_setting twin_core "b" twin_world = Some (Some 1%nat, twin_world).
Proof. reflexivity. Qed.

Lemma seq_split_at (before after : list nat) (p : nat) :
  forall a N, seq a N = (before ++ p :: after)%list ->
              p = (a + List.length before)%nat /\ before = seq a (List.length before).
Proof.
  induction before as [|x before IH]; intros a N H.
  - destruct N; simpl in H; [discriminate |]. injection H as -> _. simpl. split; [lia | reflexivity].
  - destruct N; simpl in H; [discriminate |]. injection H as <- H.
    destruct (IH _ _ H) as (Hp & Hb). simpl. split; [lia | now rewrite <- Hb].
Qed.

(** X12: After construction every setting of the core can be found by its name:
    [get_setting] returns the index of the first descriptor of the core's
    array that carries the name, and null only when the core exports no
    setting of that name. *)
Theorem constructor_then_get_setting (core : Core) (host : Host) (w w' : World) (n : string) :
  settings (jgm w) = [] ->
  constructor core host w = Some (tt, w') ->
  exists r, get_setting core n w' = Some (r, w') /\
            match r with
            | Some p =>
                (exists d, nth_error (core_settings core) p = Some d /\ name d = n) /\
                (forall q d, (q < p)%nat -> nth_error (core_settings core) q = Some d ->
                             name d <> n)
            | None => forall d, In d (core_settings core) -> name d <> n
            end.
Proof.
  intros Hnil Hc.
  destruct (constructor_settings core host w w' Hnil Hc) as (Hs & Hv).
  destruct (get_setting_scan_first core n (settings (jgm w')) Hv) as (r & Hr & Hok).
  exists r. split; [run; now rewrite Hr |].
  rewrite Hs in Hok. destruct r as [p|].
  - destruct Hok as (before & after & Hsplit & Hp & Hb).
    destruct (seq_split_at before after p _ _ Hsplit) as (Hlen & Hbefore).
    split.
    + unfold names, deref in Hp.
      destruct (nth_error (core_settings core) p) as [d|]; [| discriminate].
      exists d. split; [reflexivity | now apply String.eqb_eq].
    + intros q d Hq Hd Hname.
      rewrite forallb_forall in Hb.
      assert (Hin : In q before) by (rewrite Hbefore; apply in_seq; lia).
      specialize (Hb q Hin). rewrite (names_eqb core n q d Hd) in Hb.
      apply negb_true_iff in Hb. apply String.eqb_neq in Hb. contradiction.
  - intros d Hin Hname. apply In_nth_error in Hin. destruct Hin as (q & Hq).
    rewrite forallb_forall in Hok.
    assert (Hlt : (q < List.length (core_settings core))%nat)
      by (apply nth_error_Some; congruence).
    assert (Hqin : In q (seq 0 (List.length (core_settings core)))) by (apply in_seq; lia).
    specialize (Hok q Hqin). rewrite (names_eqb core n q d Hq) in Hok.
    apply negb_true_iff in Hok. apply String.eqb_neq in Hok. contradiction.
Qed.

Lemma constructor_then_get_setting_witness :
  exists w',
    constructor twin_core (mock_host (Some "/d") None) fresh_world = Some (tt, w') /\
    exists r, get_setting twin_core "b" w' = Some (r, w') /\
              match r with
              | Some p =>
                  (exists d, nth_error (core_settings twin_core) p = Some d /\ name d = "b") /\
                  (forall q d, (q < p)%nat -> nth_error (core_settings twin_core) q = Some d ->
                               name d <> "b")
              | None => forall d, In d (core_settings twin_core) -> name d <> "b"
              end.
Proof.
  assert (H : exists w', constructor twin_core (mock_host (Some "/d") None) fresh_world
                         = Some (tt, w')) by (eexists; vm_compute; reflexivity).
  destruct H as (w' & H). exists w'. split; [exact H |].
  apply (constructor_then_get_setting twin_core (mock_host (Some "/d") None)
           fresh_world w' "b" eq_refl H).
Defined.

(** ** Quick slots and the plain state calls *)

(** X14: A quick-slot call is the plain state call on the slot file followed by
    one screen message: same status, same core call, and the world differs
    from the plain call's only by that message. *)
Theorem quick_slot_is_state_call_then_log (core : Core) (w : World) (slot : Z) :
  loaded (jgm w) = true ->
  (exists status w1 w',
      state_save core (slotpath (jgm w) slot) w = Some (status, w1) /\
      state_qsave core slot w = Some (status, w') /\
      emitted w w1 [jg_state_save (slotpath (jgm w) slot)] /\
      emitted w1 w' [jg_log JG_LOG_SCR (save_message status)] /\
      jgm w' = jgm w) /\
  (exists status w1 w',
      state_load core (slotpath (jgm w) slot) w = Some (status, w1) /\
      state_qload core slot w = Some (status, w') /\
      emitted w w1 [jg_state_load (slotpath (jgm w) slot)] /\
      emitted w1 w' [jg_log JG_LOG_SCR (load_message status)] /\
      jgm w' = jgm w).
Proof.
  intros H. split; run; rewrite H; simpl; rewrite H; simpl.
  - generalize (core_state_save core (trace w) (slotpath (jgm w) slot)). intros result.
    destruct result as [|[p|p|]|p]; simpl;
      (do 3 eexists; split; [reflexivity | split; [reflexivity | repeat split]]).
  - generalize (core_state_load core (trace w) (slotpath (jgm w) slot)). intros result.
    destruct result as [|[p|p|]|p]; simpl;
      (do 3 eexists; split; [reflexivity | split; [reflexivity | repeat split]]).
Qed.

Lemma quick_slot_is_state_call_then_log_witness :
  loaded (jgm running_world) = true /\
  exists status w1 w',
    state_save (mock_core 1 0) (slotpath (jgm running_world) 3) running_world = Some (status, w1) /\
    state_qsave (mock_core 1 0) 3 running_world = Some (status, w') /\
    emitted running_world w1 [jg_state_save (slotpath (jgm running_world) 3)] /\
    emitted w1 w' [jg_log JG_LOG_SCR (save_message status)] /\
    jgm w' = jgm running_world.
Proof.
  split; [reflexivity |].
  apply (proj1 (quick_slot_is_state_call_then_log (mock_core 1 0) running_world 3 eq_refl)).
Defined.

(** X15: On a loaded manager [state_load] and [state_save] hand the file name to
    the core as it is, return the core's status as it is, make that one core
    call and leave the manager alone. *)
Theorem state_calls_delegate (core : Core) (w : World) (filename : string) :
  loaded (jgm w) = true ->
  (exists w', state_load core filename w = Some (core_state_load core (trace w) filename, w') /\
              jgm w' = jgm w /\ emitted w w' [jg_state_load filename]) /\
  (exists w', state_save core filename w = Some (core_state_save core (trace w) filename, w') /\
              jgm w' = jgm w /\ emitted w w' [jg_state_save filename]).
Proof.
  intros H. split; run; rewrite H; simpl; eexists; repeat split.
Qed.

Lemma state_calls_delegate_witness :
  loaded (jgm running_world) = true /\
  (exists w', state_load (mock_core 1 7) "x.nst" running_world = Some (7, w') /\
              jgm w' = jgm running_world /\ emitted running_world w' [jg_state_load "x.nst"]) /\
  (exists w', state_save (mock_core 1 7) "x.nst" running_world = Some (7, w') /\
              jgm w' = jgm running_world /\ emitted running_world w' [jg_state_save "x.nst"]).
Proof.
  split; [reflexivity |].
  apply (state_calls_delegate (mock_core 1 7) running_world "x.nst" eq_refl).
Defined.

Lemma string_app_inv_head (a b c : string) : (a ++ b = a ++ c -> b = c)%string.
Proof. induction a as [|x a IH]; simpl; [trivial | intros [= H]; auto]. Qed.

Lemma string_app_inv_tail (c : string) : forall a b : string, (a ++ c = b ++ c -> a = b)%string.
Proof.
  induction a as [|x a IH]; intros [|y b] H; simpl in H.
  - reflexivity.
  - apply (f_equal String.length) in H. simpl in H. rewrite string_length_app in H. lia.
  - apply (f_equal String.length) in H. simpl in H. rewrite string_length_app in H. lia.
  - injection H as -> H. f_equal. now apply IH.
Qed.

Lemma to_string_inj (z z' : Z) : to_string z = to_string z' -> z = z'.
Proof.
  intros H. apply (f_equal of_string) in H.
  rewrite !of_string_to_string in H. now injection H.
Qed.

(** X16: Two different slots of one game never share a file. *)
Theorem quick_slots_do_not_collide (m : JGManager) (slot slot' : Z) :
  slot <> slot' -> slotpath m slot <> slotpath m slot'.
Proof.
  intros Hne H. apply Hne. unfold slotpath in H.
  apply string_app_inv_tail, string_app_inv_head in H.
  now apply to_string_inj.
Qed.

Lemma quick_slots_do_not_collide_witness :
  slotpath (jgm running_world) 1 <> slotpath (jgm running_world) 10.
Proof.
  apply (quick_slots_do_not_collide (jgm running_world) 1 10). lia.
Defined.

Lemma to_string_negative (p : positive) :
  to_string (Z.neg p) = String "-" (to_string (Z.pos p)).
Proof.
  unfold to_string. cbn [Z.to_int NilZero.string_of_int].
  f_equal.
Qed.

Lemma to_string_nonneg_digits (z : Z) : 0 <= z -> all_digits (to_string z) = true.
Proof.
  destruct z as [|p|p]; [reflexivity | | lia]. intros _.
  unfold to_string. cbn [Z.to_int NilZero.string_of_int].
  destruct (Pos.to_uint p) eqn:E; try (cbn; apply all_digits_string_of_uint).
  reflexivity.
Qed.

(** X17: The slot number enters the file name as digits only when it is not
    negative; a negative slot puts a minus sign after the underscore,
    followed by the digits of its magnitude. *)
Theorem slot_file_name_sign (m : JGManager) (slot : Z) :
  (0 <= slot ->
   all_digits (to_string slot) = true /\ to_string slot <> "" /\
   slotpath m slot = basepath m ++ "/state/" ++ gamename m ++ "_" ++ to_string slot ++ ".nst") /\
  (slot < 0 ->
   all_digits (to_string (- slot)) = true /\
   slotpath m slot = basepath m ++ "/state/" ++ gamename m ++ "_-" ++ to_string (- slot) ++ ".nst").
Proof.
  split; intros H.
  - split; [now apply to_string_nonneg_digits |]. split.
    + intros E. pose proof (of_string_to_string slot) as R. rewrite E in R. discriminate.
    + apply slotpath_quick_slot_path.
  - split; [apply to_string_nonneg_digits; lia |].
    rewrite slotpath_quick_slot_path. unfold quick_slot_path.
    destruct slot as [|p|p]; try lia. now rewrite to_string_negative.
Qed.

Lemma slot_file_name_sign_witness :
  (all_digits (to_string 12) = true /\ to_string 12 <> "" /\
   slotpath (jgm running_world) 12 = "/d/nestopia/state/Alpha_12.nst") /\
  (all_digits (to_string (- -7)) = true /\
   slotpath (jgm running_world) (-7) = "/d/nestopia/state/Alpha_-7.nst").
Proof.
  split.
  - apply (proj1 (slot_file_name_sign (jgm running_world) 12)). lia.
  - apply (proj2 (slot_file_name_sign (jgm running_world) (-7))). lia.
Defined.

(** ** Identity, guards and passthroughs *)

(** X4: Only [load_game] changes the game identity: across any calls that do
    not load, [unload_game] included, the game record and the four identity
    strings stay, and [get_gamename] keeps returning the same name. *)
Theorem identity_changes_only_by_load (core : Core) (host : Host)
        (cs : list Command) (w : World) :
  settings_valid core (jgm w) ->
  forallb (fun c => negb (is_load_command c)) cs = true ->
  exists w', exec_all core host cs w = Some (tt, w') /\
             same_identity w w' /\
             get_gamename w' = Some (gamename (jgm w), w').
Proof.
  intros Hv Hno.
  destruct (exec_all_steps core host cs w Hv) as (w' & es & Hrun & _ & _ & _ & Hid & _).
  specialize (Hid Hno). exists w'. split; [exact Hrun | split; [exact Hid |]].
  run. destruct Hid as (_ & _ & -> & _). reflexivity.
Qed.

Lemma identity_changes_only_by_load_witness :
  settings_valid (mock_core 1 1) (jgm running_world) /\
  forallb (fun c => negb (is_load_command c)) sample_idle_calls = true /\
  exists w', exec_all (mock_core 1 1) (mock_host (Some "/d") None) sample_idle_calls running_world
               = Some (tt, w') /\
             same_identity running_world w' /\
             get_gamename w' = Some ("Alpha", w').
Proof.
  assert (H : settings_valid (mock_core 1 1) (jgm running_world)).
  { unfold settings_valid. simpl. repeat constructor. }
  split; [exact H | split; [reflexivity |]].
  apply (identity_changes_only_by_load (mock_core 1 1) (mock_host (Some "/d") None)
           sample_idle_calls running_world H eq_refl).
Defined.

(** X18: [reset], [media_select], [media_insert] and [rehash] are guarded the
    same way: with a game loaded each makes its one core call, [reset]
    passing the [hard] flag on unchanged; without a game none reaches the
    core.  The manager itself is never changed. *)
Theorem guarded_commands (w : World) (hard : Z) :
  (exists w', reset hard w = Some (tt, w') /\ jgm w' = jgm w /\
              emitted w w' (if loaded (jgm w) then [jg_reset hard] else [])) /\
  (exists w', media_select w = Some (tt, w') /\ jgm w' = jgm w /\
              emitted w w' (if loaded (jgm w) then [jg_media_select] else [])) /\
  (exists w', media_insert w = Some (tt, w') /\ jgm w' = jgm w /\
              emitted w w' (if loaded (jgm w) then [jg_media_insert] else [])) /\
  (exists w', rehash w = Some (tt, w') /\ jgm w' = jgm w /\
              emitted w w' (if loaded (jgm w) then [jg_rehash] else [])).
Proof.
  run. destruct (loaded (jgm w)); simpl;
    repeat split; eexists; (split; [reflexivity |]); simpl;
    (split; [reflexivity | now rewrite ?List.app_nil_r]).
Qed.

(** X19: [cheat_clear], [cheat_set] and [init] have no guard: loaded or not,
    each makes its one core call, [cheat_set] with the code as given and
    [init] returning the core's status; the manager is not changed. *)
Theorem unguarded_commands (core : Core) (w : World) (code : string) :
  (exists w', cheat_clear w = Some (tt, w') /\ jgm w' = jgm w /\
              emitted w w' [jg_cheat_clear]) /\
  (exists w', cheat_set code w = Some (tt, w') /\ jgm w' = jgm w /\
              emitted w w' [jg_cheat_set code]) /\
  (exists w', init core w = Some (core_init core (trace w), w') /\ jgm w' = jgm w /\
              emitted w w' [jg_init]).
Proof.
  run. repeat split; eexists; repeat split.
Qed.

(** ** The frametime conversion *)

Lemma int_of_double_range (d : float) (z : Z) :
  int_of_double d = Some z -> INT_MIN <= z <= INT_MAX.
Proof.
  unfold int_of_double.
  destruct (Prim2SF d) as [s|s| |s m e]; try discriminate.
  - intros [= <-]. unfold INT_MIN, INT_MAX. lia.
  - cbv zeta. destruct (_ && _) eqn:E; [| discriminate].
    intros [= <-]. apply andb_prop in E. destruct E as [E1 E2].
    apply Z.leb_le in E1, E2. split; assumption.
Qed.

(** X20: Whenever the callback returns for a non-zero sum, the stored frametime
    is the double sum [interval + 0.5] with its fraction cut off: it has the
    sign of the sum, its magnitude is the integer part of the sum's
    magnitude, and it lies within [int].  Manager and trace are untouched. *)
Theorem jg_frametime_truncates (interval : float) (w w' : World)
        (s : bool) (m : positive) (e : Z) :
  Prim2SF (interval + 0.5)%float = S754_finite s m e ->
  jg_frametime interval w = Some (tt, w') ->
  (if s then frametime w' <= 0 else 0 <= frametime w') /\
  (0 <= e -> Z.abs (frametime w') = Z.pos m * 2 ^ e) /\
  (e < 0 -> Z.abs (frametime w') * 2 ^ (- e) <= Z.pos m
            < (Z.abs (frametime w') + 1) * 2 ^ (- e)) /\
  INT_MIN <= frametime w' <= INT_MAX /\
  jgm w' = jgm w /\ trace w' = trace w.
Proof.
  intros Hsf. unfold jg_frametime.
  destruct (int_of_double (interval + 0.5)) as [z|] eqn:E; [| discriminate].
  unfold set_frametime. intros [= <-]. simpl.
  destruct (int_of_double_truncates _ s m e z Hsf E) as (H1 & H2 & H3).
  pose proof (int_of_double_range _ z E) as H4.
  split; [exact H1 |]. split; [exact H2 |]. split; [exact H3 |].
  split; [exact H4 |]. split; reflexivity.
Qed.

Lemma jg_frametime_truncates_witness :
  exists w' s m e,
    Prim2SF (-2.7 + 0.5)%float = S754_finite s m e /\
    jg_frametime (-2.7)%float fresh_world = Some (tt, w') /\
    frametime w' = -2 /\
    (if s then frametime w' <= 0 else 0 <= frametime w') /\
    (e < 0 -> Z.abs (frametime w') * 2 ^ (- e) <= Z.pos m
              < (Z.abs (frametime w') + 1) * 2 ^ (- e)).
Proof.
  assert (H1 : exists s m e, Prim2SF (-2.7 + 0.5)%float = S754_finite s m e)
    by (do 3 eexists; vm_compute; reflexivity).
  destruct H1 as (s & m & e & H1).
  assert (H2 : exists w', jg_frametime (-2.7)%float fresh_world = Some (tt, w') /\
                          frametime w' = -2)
    by (eexists; split; vm_compute; reflexivity).
  destruct H2 as (w' & H2 & H3).
  destruct (jg_frametime_truncates (-2.7)%float fresh_world w' s m e H1 H2)
    as (Ha & _ & Hb & _).
  exists w', s, m, e. split; [exact H1 |]. split; [exact H2 |]. split; [exact H3 |].
  split; [exact Ha | exact Hb].
Defined.

(** ** The load state *)

(** X5: [is_loaded] follows the two-state machine: after any call it is false
    if the call was [unload_game], the core's verdict if the call was
    [load_game], and what it was before for every other call. *)
Theorem loaded_follows_calls (core : Core) (host : Host) (c : Command) (w : World) :
  settings_valid core (jgm w) ->
  exists w', exec core host c w = Some (tt, w') /\
             is_loaded w' =
               Some (next_loaded (loaded (jgm w)) c (load_accepted core host w c), w').
Proof.
  intros Hv. destruct (is_load_command c) eqn:Hc.
  - destruct c; try discriminate. cbn [exec next_loaded load_accepted].
    destruct (load_game_runs core host w filename game) as (w' & Hrun & _ & Hl & _).
    exists w'. split; [exact Hrun |]. run. now rewrite Hl.
  - destruct (exec_step core host c w Hv) as (w' & es & Hrun & _ & _ & Hl & _).
    exists w'. split; [exact Hrun |]. run. rewrite (Hl Hc).
    destruct c; try discriminate; reflexivity.
Qed.

Lemma loaded_follows_calls_witness :
  settings_valid (mock_core 0 1) (jgm running_world) /\
  exists w', exec (mock_core 0 1) (mock_host (Some "/d") None)
               (call_load_game "/roms/Beta.nes" []) running_world = Some (tt, w') /\
             is_loaded w' = Some (false, w').
Proof.
  assert (H : settings_valid (mock_core 0 1) (jgm running_world)).
  { unfold settings_valid. simpl. repeat constructor. }
  split; [exact H |].
  apply (loaded_follows_calls (mock_core 0 1) (mock_host (Some "/d") None)
           (call_load_game "/roms/Beta.nes" []) running_world H).
Defined.
